(** * Audio acquisition: the YouTube downloader and its configuration

    A shallow embedding of [src/acquisition/config.py], [base.py] and
    [youtube.py].  Python objects become records, dictionaries become
    finite maps keyed by strings, and every call that leaves the module
    (the file system, yt-dlp, the caller's progress callback) is answered
    by an explicit [World] so that [download] is a total function whose
    outcome is either a returned [DownloadResult] or a raised exception. *)

From Stdlib Require Import ZArith QArith Qabs List String Ascii Bool Lia DecimalString.
From stdpp Require Import gmap strings list fin_maps.

Import ListNotations.
Local Open Scope string_scope.
Local Open Scope list_scope.

(** ** Python values and truthiness *)

(** The values that occur inside the dictionaries handed over by yt-dlp
    (the info mapping of a probe, a progress event).  Numbers are Python
    ints. *)
Inductive pyval : Type :=
  | VNone
  | VInt (z : Z)
  | VStr (s : string).

#[global] Instance pyval_eq_dec : EqDecision pyval.
Proof. solve_decision. Defined.

(** [bool(v)] *)
Definition truthy (v : pyval) : bool :=
  match v with
  | VNone => false
  | VInt z => negb (z =? 0)%Z
  | VStr s => negb (String.eqb s "")
  end.

(** Truthiness of an [int | None] attribute. *)
Definition truthy_opt_int (o : option Z) : bool :=
  match o with
  | Some z => negb (z =? 0)%Z
  | None => false
  end.

(** Truthiness of a [str | None] attribute. *)
Definition truthy_opt_str (o : option string) : bool :=
  match o with
  | Some s => negb (String.eqb s "")
  | None => false
  end.

(** [str(n)] for a Python int. *)
Definition str_of_int (z : Z) : string := NilZero.string_of_int (Z.to_int z).

(** [d.get(k, default)] *)
Definition dict_get (d : gmap string pyval) (k : string) (default : pyval) : pyval :=
  match d !! k with
  | Some v => v
  | None => default
  end.

(** ** Exceptions and outcomes *)

(** The three handler classes that matter to [download]:
    [yt_dlp.utils.DownloadError], any other subclass of [Exception], and
    the [BaseException]s outside [Exception] ([KeyboardInterrupt],
    [SystemExit]). *)
Inductive exn_class : Type :=
  | DownloadError
  | OtherException
  | NonException.

Record exn : Type := mkExn { exn_cls : exn_class; exn_msg : string }.

Inductive outcome (A : Type) : Type :=
  | Returned (a : A)
  | Raised (e : exn).
Arguments Returned {A} a.
Arguments Raised {A} e.

(** ** config.py *)

Module Config.

(** [Literal["wav", "mp3", "m4a", "opus"]] *)
Inductive AudioFormat : Type := wav | mp3 | m4a | opus.

Definition format_name (f : AudioFormat) : string :=
  match f with
  | wav => "wav"
  | mp3 => "mp3"
  | m4a => "m4a"
  | opus => "opus"
  end.

Record DownloadConfig : Type := mkConfig {
  audio_format : AudioFormat;
  audio_quality : Z;
  sample_rate : option Z;
  mono : bool;
  max_duration : option Z;
  filename_template : string;
  embed_metadata : bool;
  cookies_from_browser : option string
}.

(** [DownloadConfig()]: every field at its declared default. *)
Definition default_config : DownloadConfig :=
  {| audio_format := wav;
     audio_quality := 192;
     sample_rate := Some 16000%Z;
     mono := true;
     max_duration := None;
     filename_template := "{title}";
     embed_metadata := true;
     cookies_from_browser := None |}.

(** The class is declared with a bare [@dataclass]: [frozen] keeps its
    default. *)
Definition dataclass_frozen : bool := false.

(** An attribute assignment [cfg.<field> = value]. *)
Inductive assignment : Type :=
  | SetAudioFormat (f : AudioFormat)
  | SetAudioQuality (q : Z)
  | SetSampleRate (r : option Z)
  | SetMono (b : bool)
  | SetMaxDuration (m : option Z)
  | SetFilenameTemplate (t : string)
  | SetEmbedMetadata (b : bool)
  | SetCookiesFromBrowser (c : option string).

Definition assign (c : DownloadConfig) (a : assignment) : DownloadConfig :=
  match a with
  | SetAudioFormat f =>
      mkConfig f (audio_quality c) (sample_rate c) (mono c) (max_duration c)
               (filename_template c) (embed_metadata c) (cookies_from_browser c)
  | SetAudioQuality q =>
      mkConfig (audio_format c) q (sample_rate c) (mono c) (max_duration c)
               (filename_template c) (embed_metadata c) (cookies_from_browser c)
  | SetSampleRate r =>
      mkConfig (audio_format c) (audio_quality c) r (mono c) (max_duration c)
               (filename_template c) (embed_metadata c) (cookies_from_browser c)
  | SetMono b =>
      mkConfig (audio_format c) (audio_quality c) (sample_rate c) b (max_duration c)
               (filename_template c) (embed_metadata c) (cookies_from_browser c)
  | SetMaxDuration m =>
      mkConfig (audio_format c) (audio_quality c) (sample_rate c) (mono c) m
               (filename_template c) (embed_metadata c) (cookies_from_browser c)
  | SetFilenameTemplate t =>
      mkConfig (audio_format c) (audio_quality c) (sample_rate c) (mono c)
               (max_duration c) t (embed_metadata c) (cookies_from_browser c)
  | SetEmbedMetadata b =>
      mkConfig (audio_format c) (audio_quality c) (sample_rate c) (mono c)
               (max_duration c) (filename_template c) b (cookies_from_browser c)
  | SetCookiesFromBrowser o =>
      mkConfig (audio_format c) (audio_quality c) (sample_rate c) (mono c)
               (max_duration c) (filename_template c) (embed_metadata c) o
  end.

(** [setattr] on a dataclass instance: a frozen dataclass raises
    [FrozenInstanceError], any other stores the value. *)
Definition setattr (c : DownloadConfig) (a : assignment) : outcome DownloadConfig :=
  if dataclass_frozen
  then Raised (mkExn OtherException "cannot assign to field")
  else Returned (assign c a).

(** Values found in the options dictionary given to yt-dlp. *)
#[local] Set Warnings "-register-all".
Inductive optval : Type :=
  | OStr (s : string)
  | OBool (b : bool)
  | OTuple (items : list string)
  | OList (items : list optval)
  | ODict (entries : list (string * optval))
  | OHook.

Definition user_agent : string :=
  "Mozilla/5.0 (Windows NT 10.0; Win64; x64) AppleWebKit/537.36 (KHTML, like Gecko) Chrome/120.0.0.0 Safari/537.36".

(** The list built in [postprocessor_args] before it is stored. *)
Definition postprocessor_args (c : DownloadConfig) : list string :=
  (if truthy_opt_int (sample_rate c)
   then ["-ar"; str_of_int (default 0%Z (sample_rate c))]
   else [])
  ++ (if mono c then ["-ac"; "1"] else []).

(** [lst.append(x)] on a list stored under a key. *)
Definition olist_append (x : optval) (v : optval) : optval :=
  match v with
  | OList l => OList (l ++ [x])
  | other => other
  end.

Definition to_yt_dlp_opts (c : DownloadConfig) : gmap string optval :=
  let postprocessor_args := postprocessor_args c in
  let opts : gmap string optval :=
    <["format" := OStr "bestaudio/best"]>
    (<["postprocessors" :=
         OList [ODict [("key", OStr "FFmpegExtractAudio");
                       ("preferredcodec", OStr (format_name (audio_format c)));
                       ("preferredquality", OStr (str_of_int (audio_quality c)))]]]>
    (<["outtmpl" := OStr (filename_template c +:+ ".%(ext)s")]>
    (<["quiet" := OBool true]>
    (<["no_warnings" := OBool true]>
    (<["http_headers" := ODict [("User-Agent", OStr user_agent)]]> ∅))))) in
  let opts :=
    if truthy_opt_str (cookies_from_browser c)
    then <["cookiesfrombrowser" := OTuple [default "" (cookies_from_browser c)]]> opts
    else opts in
  let opts :=
    match postprocessor_args with
    | [] => opts
    | _ :: _ => <["postprocessor_args" :=
                    ODict [("ffmpeg", OList (map OStr postprocessor_args))]]> opts
    end in
  let opts :=
    if embed_metadata c
    then alter (olist_append (ODict [("key", OStr "FFmpegMetadata")])) "postprocessors" opts
    else opts in
  opts.

Definition PRESET_TRANSCRIPTION : DownloadConfig :=
  assign (assign (assign default_config (SetAudioFormat wav))
                 (SetSampleRate (Some 16000%Z))) (SetMono true).

Definition PRESET_HIGH_QUALITY : DownloadConfig :=
  assign (assign (assign default_config (SetAudioFormat wav))
                 (SetSampleRate (Some 44100%Z))) (SetMono false).

Definition PRESET_COMPACT : DownloadConfig :=
  assign (assign (assign (assign default_config (SetAudioFormat mp3))
                         (SetAudioQuality 128)) (SetSampleRate (Some 16000%Z)))
         (SetMono true).

End Config.

(** ** Regular expressions as used by [re.match]

    Only the constructs that occur in [YOUTUBE_PATTERNS]: literals, a
    character class, an optional group [(...)?], a bounded repetition
    [{n}], concatenation, and a capturing group (transparent for the
    question whether a match exists). *)

Module Re.

Inductive regex : Type :=
  | Lit (s : list ascii)
  | Class (p : ascii -> bool)
  | Cat (r1 r2 : regex)
  | Opt (r : regex)
  | Rep (n : nat) (r : regex)
  | Group (r : regex).

(** [strip l s]: what is left of [s] after the literal [l], if [s]
    starts with it. *)
Fixpoint strip (l s : list ascii) : option (list ascii) :=
  match l, s with
  | [], _ => Some s
  | _ :: _, [] => None
  | a :: l', b :: s' => if Ascii.eqb a b then strip l' s' else None
  end.

(** [n] successive matches of [f]. *)
Fixpoint times (f : list ascii -> list (list ascii)) (n : nat) (s : list ascii)
  : list (list ascii) :=
  match n with
  | O => [s]
  | S k => flat_map (times f k) (f s)
  end.

(** All the ways [r] can match at the start of [s], each given by the
    unconsumed rest, in the order a backtracking matcher tries them
    (an optional group is tried greedily first). *)
Fixpoint rests (r : regex) (s : list ascii) : list (list ascii) :=
  match r with
  | Lit l => match strip l s with Some rest => [rest] | None => [] end
  | Class p => match s with
               | c :: rest => if p c then [rest] else []
               | [] => []
               end
  | Cat r1 r2 => flat_map (rests r2) (rests r1 s)
  | Opt r1 => rests r1 s ++ [s]
  | Rep n r1 => times (rests r1) n s
  | Group r1 => rests r1 s
  end.

(** [re.match(pattern, s)] is truthy *)
Definition re_match (r : regex) (s : string) : bool :=
  match rests r (list_ascii_of_string s) with
  | [] => false
  | _ :: _ => true
  end.

Definition lit (s : string) : regex := Lit (list_ascii_of_string s).

End Re.

(** ** base.py *)

Module Base.

(** A [DownloadResult].  The optional attributes hold whatever object the
    constructor was given: [VNone] is Python's [None]. *)
Record DownloadResult : Type := mkResult {
  success : bool;
  file_path : option string;
  title : pyval;
  duration : pyval;
  source_url : option string;
  error_message : option string;
  metadata : gmap string pyval;
  downloaded_at : Z
}.

(** [f"{v}"] *)
Definition str_of_pyval (v : pyval) : string :=
  match v with
  | VNone => "None"
  | VInt z => str_of_int z
  | VStr s => s
  end.

(** [f"{v:.1f}"]: defined for numbers only. *)
Definition format_1f_pyval (v : pyval) : outcome string :=
  match v with
  | VInt z => Returned (str_of_int z +:+ ".0")
  | VNone => Raised (mkExn OtherException "unsupported format string passed to NoneType.__format__")
  | VStr _ => Raised (mkExn OtherException "Unknown format code 'f' for object of type 'str'")
  end.

(** [DownloadResult.__repr__] *)
Definition repr (r : DownloadResult) : outcome string :=
  if success r then
    match format_1f_pyval (duration r) with
    | Returned d =>
        Returned ("DownloadResult(success=True, title='" +:+ str_of_pyval (title r)
                  +:+ "', duration=" +:+ d +:+ "s)")
    | Raised e => Raised e
    end
  else
    Returned ("DownloadResult(success=False, error='"
              +:+ match error_message r with Some m => m | None => "None" end
              +:+ "')").

End Base.

(** ** youtube.py *)

Module YouTube.

Import Config Base Re.

(** *** URL patterns *)

(** [[a-zA-Z0-9_-]] *)
Definition id_char (c : ascii) : bool :=
  let n := nat_of_ascii c in
  (((97 <=? n) && (n <=? 122)) || ((65 <=? n) && (n <=? 90))
   || ((48 <=? n) && (n <=? 57)) || (n =? 95) || (n =? 45))%nat.

(** [(?:https?://)?(?:www\.)?] *)
Definition scheme_www (tail : regex) : regex :=
  Cat (Opt (Cat (lit "http") (Cat (Opt (lit "s")) (lit "://"))))
      (Cat (Opt (lit "www.")) tail).

(** [([a-zA-Z0-9_-]{11})] *)
Definition video_id : regex := Group (Rep 11 (Class id_char)).

Definition YOUTUBE_PATTERNS : list regex :=
  [ scheme_www (Cat (lit "youtube.com/watch?v=") video_id);
    scheme_www (Cat (lit "youtu.be/") video_id);
    scheme_www (Cat (lit "youtube.com/shorts/") video_id);
    scheme_www (Cat (lit "youtube.com/live/") video_id) ].

Definition source_name : string := "YouTube".

Definition validate_url (url : string) : bool :=
  existsb (fun pattern => re_match pattern url) YOUTUBE_PATTERNS.

(** *** The downloader object and its environment *)

(** A progress callback, by what a call to it does: return ([None]) or
    raise. *)
Definition callback : Type := Q -> string -> option exn.

Record YouTubeDownloader : Type := mkDownloader {
  config : DownloadConfig;
  _progress_callback : option callback
}.

(** [YouTubeDownloader(config)] *)
Definition init (cfg : option DownloadConfig) : YouTubeDownloader :=
  {| config := match cfg with Some c => c | None => PRESET_TRANSCRIPTION end;
     _progress_callback := None |}.

(** What a call does to the outside, in order. *)
Inductive event : Type :=
  | EvMkdir (dir : string)
  | EvOpen (ydl_opts : gmap string optval)
  | EvProbe (url : string)
  | EvTransfer (url : string)
  | EvCallback (progress : Q) (status : string).

(** The answers of everything [download] calls outside this module. *)
Record World : Type := mkWorld {
  (** [datetime.now()] *)
  now : Z;
  (** [output_dir.mkdir(parents=True, exist_ok=True)] *)
  mkdir : string -> option exn;
  (** [yt_dlp.YoutubeDL(ydl_opts)] *)
  ydl_open : gmap string optval -> option exn;
  (** [ydl.extract_info(url, download=False)] *)
  extract_info : string -> outcome (option (gmap string pyval));
  (** [ydl.download([url])]: the progress events it emits and how it ends *)
  transfer : string -> list (gmap string pyval) * option exn;
  (** [ydl.prepare_filename(info)] *)
  prepare_filename : gmap string pyval -> outcome string;
  (** [path.exists()] *)
  path_exists : string -> bool;
  (** [output_dir.glob(pattern)], each file with its [st_mtime] *)
  glob : string -> string -> list (string * Z)
}.

(** Computations that emit events and may raise. *)
Definition M (A : Type) : Type := list event * outcome A.

Definition ret {A} (a : A) : M A := ([], Returned a).
Definition raise {A} (e : exn) : M A := ([], Raised e).
Definition emit (ev : event) : M unit := ([ev], Returned tt).

Definition bind {A B} (m : M A) (k : A -> M B) : M B :=
  match m with
  | (t, Returned a) => let (t', r) := k a in (t ++ t', r)
  | (t, Raised e) => (t, Raised e)
  end.

Notation "x <- m ;; k" := (bind m (fun x => k))
  (at level 100, m at next level, right associativity).
Notation "m ;;; k" := (bind m (fun _ => k))
  (at level 100, right associativity).

Definition lift {A} (o : outcome A) : M A := ([], o).

Definition lift_unit (o : option exn) : M unit :=
  match o with
  | Some e => raise e
  | None => ret tt
  end.

Definition type_error (msg : string) : exn := mkExn OtherException msg.
Definition key_error (msg : string) : exn := mkExn OtherException msg.

(** *** Python operators on dictionary values *)

(** [a or b] *)
Definition py_or (a b : pyval) : pyval := if truthy a then a else b.

(** [a > n] for an int [n]: only numbers are ordered against an int. *)
Definition py_gt (a : pyval) (n : Z) : outcome bool :=
  match a with
  | VInt z => Returned (n <? z)%Z
  | VNone => Raised (type_error "'>' not supported between instances of 'NoneType' and 'int'")
  | VStr _ => Raised (type_error "'>' not supported between instances of 'str' and 'int'")
  end.

(** [a / b]: true division, on numbers only. *)
Definition py_div (a b : pyval) : outcome Q :=
  match a, b with
  | VInt x, VInt y =>
      if (y =? 0)%Z then Raised (mkExn OtherException "division by zero")
      else Returned (inject_Z x / inject_Z y)%Q
  | _, _ => Raised (type_error "unsupported operand type(s) for /")
  end.

(** [s[:500]] *)
Definition slice_500 (v : pyval) : outcome pyval :=
  match v with
  | VStr s => Returned (VStr (String.substring 0 500 s))
  | VNone => Raised (type_error "'NoneType' object is not subscriptable")
  | VInt _ => Raised (type_error "'int' object is not subscriptable")
  end.

(** Nearest integer to a non-negative rational, ties to even. *)
Definition round_half_even (q : Q) : Z :=
  let n := Qnum q in
  let d := Zpos (Qden q) in
  let f := (n / d)%Z in
  let r := (n mod d)%Z in
  match (2 * r ?= d)%Z with
  | Lt => f
  | Gt => (f + 1)%Z
  | Eq => if Z.even f then f else (f + 1)%Z
  end.

(** [f"{q:.1f}"].  Exact for the quotients [speed / 1024 / 1024] of an
    int below 2^53, which a float represents without rounding. *)
Definition format_1f (q : Q) : string :=
  let tenths := round_half_even (Qabs q * 10)%Q in
  (if (Qnum q <? 0)%Z then "-" else "")
  +:+ str_of_int (tenths / 10)%Z +:+ "." +:+ str_of_int (tenths mod 10)%Z.

(** [s.rsplit(".", 1)[0]] on the reversed characters: drop everything up
    to and including the first dot. *)
Fixpoint after_first_dot (rev_s : list ascii) : option (list ascii) :=
  match rev_s with
  | [] => None
  | c :: rest => if Ascii.eqb c "."%char then Some rest else after_first_dot rest
  end.

Definition rsplit_dot_head (s : string) : string :=
  match after_first_dot (rev (list_ascii_of_string s)) with
  | Some rest => string_of_list_ascii (rev rest)
  | None => s
  end.

(** [max(files, key=lambda p: p.stat().st_mtime)]: the first file with
    the greatest modification time. *)
Fixpoint max_by_mtime (best : string * Z) (files : list (string * Z)) : string * Z :=
  match files with
  | [] => best
  | f :: rest => max_by_mtime (if (snd best <? snd f)%Z then f else best) rest
  end.

(** [output_dir / name] for a relative [name]. *)
Definition path_join (dir name : string) : string := dir +:+ "/" +:+ name.

(** *** Methods *)

(** [DownloadResult(success=False, source_url=url, error_message=msg)] *)
Definition failure (w : World) (url msg : string) : DownloadResult :=
  {| success := false;
     file_path := None;
     title := VNone;
     duration := VNone;
     source_url := Some url;
     error_message := Some msg;
     metadata := ∅;
     downloaded_at := now w |}.

Definition _report_progress (self : YouTubeDownloader) (progress : Q) (status : string)
  : M unit :=
  match _progress_callback self with
  | Some cb => emit (EvCallback progress status) ;;; lift_unit (cb progress status)
  | None => ret tt
  end.

Definition _progress_hook (self : YouTubeDownloader) (d : gmap string pyval) : M unit :=
  match d !! "status" with
  | None => raise (key_error "'status'")
  | Some status =>
      if decide (status = VStr "downloading") then
        let total := py_or (dict_get d "total_bytes" VNone)
                           (dict_get d "total_bytes_estimate" (VInt 0)) in
        let downloaded := dict_get d "downloaded_bytes" (VInt 0) in
        positive_total <- lift (py_gt total 0) ;;
        if positive_total : bool then
          fraction <- lift (py_div downloaded total) ;;
          let progress := (5 + fraction * 85)%Q in
          let speed := py_or (dict_get d "speed" (VInt 0)) (VInt 0) in
          speed_str <-
            (if truthy speed
             then kb <- lift (py_div speed (VInt 1024)) ;;
                  ret (format_1f (kb / 1024)%Q +:+ " MB/s")
             else ret "...") ;;
          _report_progress self progress ("Downloading... " +:+ speed_str)
        else ret tt
      else if decide (status = VStr "finished") then
        _report_progress self 90 "Converting audio..."
      else ret tt
  end.

(** The hooks run during [ydl.download]: one call per event, until one
    raises. *)
Fixpoint run_hooks (self : YouTubeDownloader) (ds : list (gmap string pyval)) : M unit :=
  match ds with
  | [] => ret tt
  | d :: rest => _progress_hook self d ;;; run_hooks self rest
  end.

(** The [except] clauses of [download]. *)
Definition handle (w : World) (url : string) (m : M DownloadResult) : M DownloadResult :=
  match m with
  | (t, Raised e) =>
      match exn_cls e with
      | DownloadError => (t, Returned (failure w url ("Download error: " +:+ exn_msg e)))
      | OtherException => (t, Returned (failure w url ("Unexpected error: " +:+ exn_msg e)))
      | NonException => (t, Raised e)
      end
  | (t, Returned r) => (t, Returned r)
  end.

(** [self.config.max_duration and duration > self.config.max_duration] *)
Definition exceeds_limit (cfg : DownloadConfig) (duration : pyval) : outcome bool :=
  if truthy_opt_int (max_duration cfg)
  then py_gt duration (default 0%Z (max_duration cfg))
  else Returned false.

(** The body of the [try] statement from the duration check on, for a
    probe that answered with [info]. *)
Definition with_info (self : YouTubeDownloader) (w : World) (url output_dir : string)
    (info : gmap string pyval) : M DownloadResult :=
  let duration := dict_get info "duration" (VInt 0) in
  over_limit <- lift (exceeds_limit (config self) duration) ;;
  if over_limit : bool then
    ret (failure w url
           ("Video duration (" +:+ str_of_pyval duration +:+ "s) exceeds limit ("
            +:+ str_of_int (default 0%Z (max_duration (config self))) +:+ "s)"))
  else
    _report_progress self 5 "Downloading audio..." ;;;
    emit (EvTransfer url) ;;;
    run_hooks self (fst (transfer w url)) ;;;
    lift_unit (snd (transfer w url)) ;;;
    let title := dict_get info "title" (VStr "unknown") in
    filename <- lift (prepare_filename w info) ;;
    let safe_title := rsplit_dot_head filename in
    let expected_path := safe_title +:+ "." +:+ format_name (audio_format (config self)) in
    let located :=
      if path_exists w expected_path then Some expected_path
      else
        match glob w output_dir ("*." +:+ format_name (audio_format (config self))) with
        | [] => None
        | f :: rest => Some (fst (max_by_mtime f rest))
        end in
    match located with
    | None => ret (failure w url "Downloaded file not found")
    | Some expected_path =>
        _report_progress self 100 "Download complete!" ;;;
        description <- lift (slice_500 (dict_get info "description" (VStr ""))) ;;
        ret {| success := true;
               file_path := Some expected_path;
               title := title;
               duration := duration;
               source_url := Some url;
               error_message := None;
               metadata :=
                 <["video_id" := dict_get info "id" VNone]>
                 (<["uploader" := dict_get info "uploader" VNone]>
                 (<["upload_date" := dict_get info "upload_date" VNone]>
                 (<["view_count" := dict_get info "view_count" VNone]>
                 (<["description" := description]> ∅))));
               downloaded_at := now w |}
    end.

(** The body of the [try] statement. *)
Definition guarded (self : YouTubeDownloader) (w : World) (url output_dir : string)
    (ydl_opts : gmap string optval) : M DownloadResult :=
  emit (EvOpen ydl_opts) ;;; lift_unit (ydl_open w ydl_opts) ;;;
  _report_progress self 0 "Extracting video info..." ;;;
  emit (EvProbe url) ;;;
  info <- lift (extract_info w url) ;;
  match info with
  | None => ret (failure w url "Failed to extract video info")
  | Some info => with_info self w url output_dir info
  end.

(** [download]: the object after the call, and what the call did. *)
Definition download (self : YouTubeDownloader) (w : World) (url output_dir : string)
    (progress_callback : option callback) : YouTubeDownloader * M DownloadResult :=
  let self := {| config := config self; _progress_callback := progress_callback |} in
  (self,
   if negb (validate_url url) then
     ret (failure w url ("Invalid YouTube URL: " +:+ url))
   else
     emit (EvMkdir output_dir) ;;; lift_unit (mkdir w output_dir) ;;;
     let ydl_opts := to_yt_dlp_opts (config self) in
     match ydl_opts !! "outtmpl" with
     | Some (OStr outtmpl) =>
         let ydl_opts := <["outtmpl" := OStr (path_join output_dir outtmpl)]> ydl_opts in
         let ydl_opts := <["progress_hooks" := OList [OHook]]> ydl_opts in
         handle w url (guarded self w url output_dir ydl_opts)
     | _ => raise (key_error "'outtmpl'")
     end).

End YouTube.

(** * Properties *)

(** ** The matcher against the language of a pattern *)

Module ReFacts.

Import Re.

(** [n] words of [L] in a row. *)
Fixpoint power (L : list ascii -> Prop) (n : nat) (w : list ascii) : Prop :=
  match n with
  | O => w = []
  | S k => exists u v, w = u ++ v /\ L u /\ power L k v
  end.

(** The words a pattern matches in full. *)
Fixpoint lang (r : regex) (w : list ascii) : Prop :=
  match r with
  | Lit l => w = l
  | Class p => exists c, w = [c] /\ p c = true
  | Cat r1 r2 => exists u v, w = u ++ v /\ lang r1 u /\ lang r2 v
  | Opt r1 => lang r1 w \/ w = []
  | Rep n r1 => power (lang r1) n w
  | Group r1 => lang r1 w
  end.

Lemma strip_Some l s rest : strip l s = Some rest <-> s = l ++ rest.
Proof.
  revert s. induction l as [|a l IH]; intros s; simpl.
  - split; [intros [= ->]; reflexivity | intros ->; reflexivity].
  - destruct s as [|b s]; [split; discriminate|].
    destruct (Ascii.eqb_spec a b) as [->|Hne].
    + rewrite IH. split; [intros ->; reflexivity | intros [= ->]; reflexivity].
    + split; [discriminate | intros [= Hab _]; congruence].
Qed.

Lemma times_spec (f : list ascii -> list (list ascii)) (L : list ascii -> Prop) :
  (forall s rest, In rest (f s) <-> exists w, s = w ++ rest /\ L w) ->
  forall n s rest, In rest (times f n s) <-> exists w, s = w ++ rest /\ power L n w.
Proof.
  intros Hf n. induction n as [|n IH]; intros s rest; simpl.
  - split.
    + intros [<-|[]]. exists []. split; reflexivity.
    + intros (w & -> & ->). left. reflexivity.
  - rewrite in_flat_map. split.
    + intros (mid & Hmid & Hrest).
      apply Hf in Hmid as (u & -> & Hu). apply IH in Hrest as (v & -> & Hv).
      exists (u ++ v). split; [apply app_assoc|]. exists u, v. auto.
    + intros (w & -> & u & v & -> & Hu & Hv).
      exists (v ++ rest). split.
      * apply Hf. exists u. split; [symmetry; apply app_assoc | exact Hu].
      * apply IH. exists v. auto.
Qed.

(** The matcher finds exactly the prefixes in the language. *)
Lemma rests_spec r : forall s rest,
  In rest (rests r s) <-> exists w, s = w ++ rest /\ lang r w.
Proof.
  induction r as [l|p|r1 IH1 r2 IH2|r1 IH1|n r1 IH1|r1 IH1]; intros s rest; simpl.
  - destruct (strip l s) as [rest'|] eqn:E.
    + apply strip_Some in E. subst s. split.
      * intros [<-|[]]. exists l. auto.
      * intros (w & Hw & ->). apply app_inv_head in Hw. left. exact Hw.
    + split; [intros []|]. intros (w & Hw & ->).
      apply strip_Some in Hw. congruence.
  - destruct s as [|c s'].
    + split; [intros []|]. intros (w & Hw & c & -> & _). discriminate.
    + destruct (p c) eqn:E.
      * split.
        -- intros [<-|[]]. exists [c]. split; [reflexivity|]. exists c. auto.
        -- intros (w & Hw & c' & -> & _). injection Hw as _ ->. left. reflexivity.
      * split; [intros []|]. intros (w & Hw & c' & -> & Hc').
        injection Hw as -> _. congruence.
  - rewrite in_flat_map. split.
    + intros (mid & Hmid & Hrest).
      apply IH1 in Hmid as (u & -> & Hu). apply IH2 in Hrest as (v & -> & Hv).
      exists (u ++ v). split; [apply app_assoc|]. exists u, v. auto.
    + intros (w & -> & u & v & -> & Hu & Hv).
      exists (v ++ rest). split.
      * apply IH1. exists u. split; [symmetry; apply app_assoc | exact Hu].
      * apply IH2. exists v. auto.
  - rewrite in_app_iff. split.
    + intros [H|[<-|[]]].
      * apply IH1 in H as (w & -> & Hw). exists w. auto.
      * exists []. auto.
    + intros (w & -> & [Hw| ->]).
      * left. apply IH1. exists w. auto.
      * right. left. reflexivity.
  - apply times_spec. exact IH1.
  - apply IH1.
Qed.

Lemma re_match_spec r s :
  re_match r s = true <->
  exists w rest, list_ascii_of_string s = w ++ rest /\ lang r w.
Proof.
  unfold re_match. destruct (rests r (list_ascii_of_string s)) as [|x xs] eqn:E.
  - split; [discriminate|]. intros (w & rest & Hs & Hw).
    assert (In rest (rests r (list_ascii_of_string s))) as Hin
      by (apply rests_spec; exists w; auto).
    rewrite E in Hin. destruct Hin.
  - split; [intros _|reflexivity].
    assert (In x (rests r (list_ascii_of_string s))) as Hin by (rewrite E; left; reflexivity).
    apply rests_spec in Hin as (w & Hs & Hw). exists w, x. auto.
Qed.

(** A run of [n] characters of one class. *)
Lemma power_class p n w :
  power (lang (Class p)) n w <-> length w = n /\ forallb p w = true.
Proof.
  revert w. induction n as [|n IH]; intros w; simpl.
  - split.
    + intros ->. auto.
    + intros [Hlen _]. destruct w; [reflexivity | discriminate].
  - split.
    + intros (u & v & -> & (c & -> & Hc) & Hv). apply IH in Hv as [Hlen Hall].
      simpl. rewrite Hc, Hall, Hlen. auto.
    + intros [Hlen Hall]. destruct w as [|c w]; [discriminate|].
      simpl in Hall. apply andb_true_iff in Hall as [Hc Hall].
      exists [c], w. repeat split; [exists c; auto|].
      apply IH. split; [|exact Hall]. simpl in Hlen. lia.
Qed.

Lemma list_ascii_of_string_app a b :
  list_ascii_of_string (a +:+ b) = list_ascii_of_string a ++ list_ascii_of_string b.
Proof. induction a as [|c a IH]; simpl; [reflexivity | rewrite IH; reflexivity]. Qed.

Lemma string_of_list_ascii_app u v :
  string_of_list_ascii (u ++ v) = string_of_list_ascii u +:+ string_of_list_ascii v.
Proof. induction u as [|c u IH]; simpl; [reflexivity | rewrite IH; reflexivity]. Qed.

Lemma string_append_assoc (a b c : string) : (a +:+ b) +:+ c = a +:+ (b +:+ c).
Proof.
  induction a as [|x a IH]; [reflexivity|].
  change (String x ((a +:+ b) +:+ c) = String x (a +:+ (b +:+ c))).
  f_equal. exact IH.
Qed.

End ReFacts.

(** ** URL validation *)

Module UrlFacts.

Import Re ReFacts YouTube.

Definition schemes : list string := [""; "http://"; "https://"].
Definition www_prefixes : list string := [""; "www."].
Definition sites : list string :=
  ["youtube.com/watch?v="; "youtu.be/"; "youtube.com/shorts/"; "youtube.com/live/"].

(** The accepted forms in the words of the specification: an optional
    scheme, an optional [www.], one of the four site paths, an identifier
    of eleven characters, and anything after it. *)
Definition accepted_form (url : string) : Prop :=
  exists scheme www site id rest,
    In scheme schemes /\ In www www_prefixes /\ In site sites /\
    String.length id = 11 /\
    forallb id_char (list_ascii_of_string id) = true /\
    url = scheme +:+ www +:+ site +:+ id +:+ rest.

Lemma patterns_by_site :
  YOUTUBE_PATTERNS = map (fun site => scheme_www (Cat (lit site) video_id)) sites.
Proof. reflexivity. Qed.

Lemma lang_scheme_www tail w :
  lang (scheme_www tail) w <->
  exists scheme www t,
    In scheme schemes /\ In www www_prefixes /\ lang tail t /\
    w = list_ascii_of_string scheme ++ list_ascii_of_string www ++ t.
Proof.
  unfold scheme_www, lit. simpl. split.
  - intros (u & v & -> & Hu & (x & t & -> & Hx & Ht)).
    assert (exists www, In www www_prefixes /\ x = list_ascii_of_string www) as (www & Hwww & ->).
    { destruct Hx as [-> | ->]; [exists "www." | exists ""]; simpl; auto. }
    assert (exists scheme, In scheme schemes /\ u = list_ascii_of_string scheme)
      as (scheme & Hscheme & ->).
    { destruct Hu as [(a & b & -> & -> & (c & d & -> & [-> | ->] & ->)) | ->];
        [exists "https://" | exists "http://" | exists ""]; simpl; auto. }
    exists scheme, www, t. auto.
  - intros (scheme & www & t & Hscheme & Hwww & Ht & ->).
    exists (list_ascii_of_string scheme), (list_ascii_of_string www ++ t).
    split; [reflexivity|]. split.
    + simpl in Hscheme. destruct Hscheme as [<- | [<- | [<- | []]]]; simpl.
      * right. reflexivity.
      * left. eexists _, _. split; [|split; [reflexivity|]].
        2:{ exists [], (list_ascii_of_string "://"). split; [reflexivity|]. auto. }
        reflexivity.
      * left. eexists _, _. split; [|split; [reflexivity|]].
        2:{ exists (list_ascii_of_string "s"), (list_ascii_of_string "://").
            split; [reflexivity|]. auto. }
        reflexivity.
    + exists (list_ascii_of_string www), t. split; [reflexivity|]. split; [|exact Ht].
      simpl in Hwww. destruct Hwww as [<- | [<- | []]]; simpl; auto.
Qed.

Lemma lang_site_id site t :
  lang (Cat (lit site) video_id) t <->
  exists id, length id = 11 /\ forallb id_char id = true /\
             t = list_ascii_of_string site ++ id.
Proof.
  unfold video_id, lit. cbn [lang]. split.
  - intros (u & v & -> & -> & Hv). apply power_class in Hv as [Hlen Hall].
    exists v. auto.
  - intros (id & Hlen & Hall & ->). exists (list_ascii_of_string site), id.
    repeat split. apply power_class. auto.
Qed.

Lemma validate_url_patterns url :
  validate_url url = true <->
  exists pattern, In pattern YOUTUBE_PATTERNS /\ re_match pattern url = true.
Proof. unfold validate_url. apply existsb_exists. Qed.

Lemma validate_url_accepted url : validate_url url = true <-> accepted_form url.
Proof.
  rewrite validate_url_patterns, patterns_by_site. split.
  - intros (pattern & Hin & Hm). apply in_map_iff in Hin as (site & <- & Hsite).
    apply re_match_spec in Hm as (w & rest & Hurl & Hw).
    apply lang_scheme_www in Hw as (scheme & www & t & Hscheme & Hwww & Ht & ->).
    apply lang_site_id in Ht as (id & Hlen & Hall & ->).
    exists scheme, www, site, (string_of_list_ascii id), (string_of_list_ascii rest).
    repeat split; auto.
    + rewrite <- Hlen. clear. induction id; simpl; auto.
    + rewrite list_ascii_of_string_of_list_ascii. exact Hall.
    + rewrite <- (string_of_list_ascii_of_string url), Hurl.
      rewrite !string_of_list_ascii_app, !string_of_list_ascii_of_string.
      rewrite !string_append_assoc. reflexivity.
  - intros (scheme & www & site & id & rest & Hscheme & Hwww & Hsite & Hlen & Hall & ->).
    exists (scheme_www (Cat (lit site) video_id)). split.
    + apply in_map_iff. exists site. auto.
    + apply re_match_spec.
      exists (list_ascii_of_string scheme ++ list_ascii_of_string www
              ++ list_ascii_of_string site ++ list_ascii_of_string id),
             (list_ascii_of_string rest).
      split.
      * rewrite !list_ascii_of_string_app, <- !app_assoc. reflexivity.
      * apply lang_scheme_www. exists scheme, www, (list_ascii_of_string site ++ list_ascii_of_string id).
        repeat split; auto. apply lang_site_id. exists (list_ascii_of_string id).
        repeat split; auto. rewrite <- Hlen. clear. induction id; simpl; auto.
Qed.

(** C7. [validate_url] is true exactly when one of the four patterns
    matches at the start of the string, that is exactly for the strings
    made of an optional scheme, an optional [www.], one of the four site
    paths and an eleven-character identifier, followed by anything; so it
    is false for every other string, false for the vimeo address and true
    for the scheme-less watch address. *)
Theorem validate_url_four_forms :
  (forall url, validate_url url = true <->
               exists pattern, In pattern YOUTUBE_PATTERNS /\ re_match pattern url = true)
  /\ (forall url, validate_url url = true <-> accepted_form url)
  /\ (forall url, ~ accepted_form url -> validate_url url = false)
  /\ validate_url "https://vimeo.com/123456" = false
  /\ validate_url "youtube.com/watch?v=dQw4w9WgXcQ" = true.
Proof.
  split; [exact validate_url_patterns|].
  split; [exact validate_url_accepted|].
  split; [|split; reflexivity].
  intros url Hno. destruct (validate_url url) eqn:E; [|reflexivity].
  exfalso. apply Hno, validate_url_accepted, E.
Qed.

End UrlFacts.

(** ** The options rendered from a configuration *)

Module ConfigFacts.

Import Config.







End ConfigFacts.

(** ** Reasoning about computations *)

Module Outcomes.

Import YouTube.

(** [m] ends in a value satisfying [P] or in an exception satisfying [Q]. *)
Definition satisfies {A} (P : A -> Prop) (Q : exn -> Prop) (m : M A) : Prop :=
  match snd m with
  | Returned a => P a
  | Raised e => Q e
  end.

Lemma satisfies_ret {A} (P : A -> Prop) Q a : P a -> satisfies P Q (ret a).
Proof. intros H. exact H. Qed.

Lemma satisfies_bind {A B} (m : M A) (k : A -> M B) P Q :
  satisfies (fun a => satisfies P Q (k a)) Q m -> satisfies P Q (bind m k).
Proof.
  unfold satisfies, bind. destruct m as [t [a|e]]; simpl; [|auto].
  destruct (k a) as [t' r]. auto.
Qed.

Lemma satisfies_emit (P : unit -> Prop) Q ev : P tt -> satisfies P Q (emit ev).
Proof. intros H. exact H. Qed.

Lemma satisfies_lift {A} (P : A -> Prop) Q (o : outcome A) :
  match o with Returned a => P a | Raised e => Q e end -> satisfies P Q (lift o).
Proof. intros H. exact H. Qed.

Lemma satisfies_lift_unit (P : unit -> Prop) Q (o : option exn) :
  match o with Some e => Q e | None => P tt end -> satisfies P Q (lift_unit o).
Proof. destruct o; intros H; exact H. Qed.

Lemma bind_ret {A B} (a : A) (k : A -> M B) : bind (ret a) k = k a.
Proof. unfold bind, ret. destruct (k a). reflexivity. Qed.

End Outcomes.

(** ** The download call *)

Module DownloadFacts.

Import Config Base YouTube Outcomes.

(** The object as [download] leaves it on entry. *)
Definition with_callback (self : YouTubeDownloader) (cb : option callback)
  : YouTubeDownloader :=
  {| config := config self; _progress_callback := cb |}.

(** The options [download] hands to yt-dlp. *)
Definition ydl_opts_for (cfg : DownloadConfig) (output_dir : string) : gmap string optval :=
  <["progress_hooks" := OList [OHook]]>
  (<["outtmpl" := OStr (path_join output_dir (filename_template cfg +:+ ".%(ext)s"))]>
   (to_yt_dlp_opts cfg)).

(** What the call did and how it ended. *)
Definition trace_of {A} (r : YouTubeDownloader * M A) : list event := fst (snd r).
Definition outcome_of {A} (r : YouTubeDownloader * M A) : outcome A := snd (snd r).

(** The progress reports of a trace. *)
Fixpoint callbacks (t : list event) : list (Q * string) :=
  match t with
  | [] => []
  | EvCallback p s :: rest => (p, s) :: callbacks rest
  | _ :: rest => callbacks rest
  end.

Lemma lookup_outtmpl cfg :
  to_yt_dlp_opts cfg !! "outtmpl" = Some (OStr (filename_template cfg +:+ ".%(ext)s")).
Proof.
  unfold to_yt_dlp_opts.
  destruct (postprocessor_args cfg) as [|a args];
    destruct (embed_metadata cfg); destruct (truthy_opt_str (cookies_from_browser cfg));
    cbn zeta iota beta;
    rewrite ?lookup_alter_ne by discriminate;
    repeat (rewrite lookup_insert_ne by discriminate);
    apply lookup_insert_eq.
Qed.

Lemma download_unfold self w url output_dir cb :
  download self w url output_dir cb
  = (with_callback self cb,
     if negb (validate_url url) then
       ret (failure w url ("Invalid YouTube URL: " +:+ url))
     else
       emit (EvMkdir output_dir) ;;; lift_unit (mkdir w output_dir) ;;;
       handle w url (guarded (with_callback self cb) w url output_dir
                             (ydl_opts_for (config self) output_dir))).
Proof.
  unfold download. fold (with_callback self cb). cbn [config with_callback].
  rewrite lookup_outtmpl. reflexivity.
Qed.

(** A successful result, as built from the probed mapping. *)
Definition success_shape (w : World) (url : string) (r : DownloadResult) : Prop :=
  exists info path,
    extract_info w url = Returned (Some info)
    /\ success r = true
    /\ file_path r = Some path
    /\ title r = dict_get info "title" (VStr "unknown")
    /\ duration r = dict_get info "duration" (VInt 0)
    /\ source_url r = Some url
    /\ error_message r = None.

(** The error texts [download] writes. *)
Definition failure_message (url msg : string) : Prop :=
  msg = "Invalid YouTube URL: " +:+ url
  \/ msg = "Failed to extract video info"
  \/ (exists d m, msg = "Video duration (" +:+ d +:+ "s) exceeds limit (" +:+ m +:+ "s)")
  \/ msg = "Downloaded file not found"
  \/ (exists text, msg = "Download error: " +:+ text)
  \/ (exists text, msg = "Unexpected error: " +:+ text).

(** Every result is either a failure record or a success record. *)
Definition result_shape (w : World) (url : string) (r : DownloadResult) : Prop :=
  (exists msg, failure_message url msg /\ r = failure w url msg) \/ success_shape w url r.


Lemma satisfies_bind_any {A B} (m : M A) (k : A -> M B) (P : B -> Prop) :
  (forall a, satisfies P (fun _ => True) (k a)) ->
  satisfies P (fun _ => True) (bind m k).
Proof.
  intros H. apply satisfies_bind. unfold satisfies at 1. destruct (snd m); [apply H | exact I].
Qed.

Lemma guarded_shape self w url output_dir opts :
  satisfies (result_shape w url) (fun _ => True) (guarded self w url output_dir opts).
Proof.
  unfold guarded, with_info.
  do 4 (apply satisfies_bind_any; intros _).
  apply satisfies_bind, satisfies_lift.
  destruct (extract_info w url) as [[info|]|e] eqn:Hinfo; [| |exact I].
  2:{ apply satisfies_ret. left. eexists. split; [|reflexivity].
      unfold failure_message. auto. }
  apply satisfies_bind_any. intros [|].
  { apply satisfies_ret. left. eexists. split; [|reflexivity].
    unfold failure_message. right. right. left. eauto. }
  do 4 (apply satisfies_bind_any; intros _).
  apply satisfies_bind_any. intros filename.
  match goal with |- satisfies _ _ (match ?l with _ => _ end) => destruct l as [path|] end.
  2:{ apply satisfies_ret. left. eexists. split; [|reflexivity].
      unfold failure_message. auto. }
  apply satisfies_bind_any; intros _.
  apply satisfies_bind_any; intros description.
  apply satisfies_ret. right. exists info, path. repeat split; auto.
Qed.

Lemma handle_shape w url m :
  satisfies (result_shape w url) (fun _ => True) m ->
  satisfies (result_shape w url) (fun e => exn_cls e = NonException) (handle w url m).
Proof.
  unfold satisfies, handle. destruct m as [t [r|e]]; simpl; [auto|].
  intros _. destruct (exn_cls e) eqn:E; simpl; [| |exact E].
  - left. eexists. split; [|reflexivity]. unfold failure_message. eauto 8.
  - left. eexists. split; [|reflexivity]. unfold failure_message. eauto 8.
Qed.

(** How a call of [download] can end. *)
Lemma download_outcome self w url output_dir cb :
  match outcome_of (download self w url output_dir cb) with
  | Returned r => result_shape w url r
  | Raised e =>
      validate_url url = true
      /\ (mkdir w output_dir = Some e
          \/ (mkdir w output_dir = None /\ exn_cls e = NonException))
  end.
Proof.
  unfold outcome_of. rewrite download_unfold. cbn [snd].
  destruct (validate_url url); cbn [negb].
  2:{ left. eexists. split; [|reflexivity]. unfold failure_message. auto. }
  destruct (mkdir w output_dir) as [e|]; [simpl; auto|].
  pose proof (handle_shape w url _
                (guarded_shape (with_callback self cb) w url output_dir
                               (ydl_opts_for (config self) output_dir))) as H.
  unfold satisfies in H.
  destruct (handle w url _) as [t [r|e]]; simpl in *; auto.
Qed.

Lemma handle_events w url (m : M DownloadResult) : fst (handle w url m) = fst m.
Proof. destruct m as [t [r|e]]; simpl; [reflexivity|]. destruct (exn_cls e); reflexivity. Qed.

Lemma bind_events_l {A B} (m : M A) (k : A -> M B) ev :
  In ev (fst m) -> In ev (fst (bind m k)).
Proof.
  unfold bind. destruct m as [t [a|e]]; simpl; [|auto].
  destruct (k a). simpl. rewrite in_app_iff. auto.
Qed.

Lemma bind_events_r {A B} (m : M A) (k : A -> M B) a ev :
  snd m = Returned a -> In ev (fst (k a)) -> In ev (fst (bind m k)).
Proof.
  unfold bind. destruct m as [t [a'|e]]; simpl; [|discriminate].
  intros [= ->]. destruct (k a). simpl. rewrite in_app_iff. auto.
Qed.

(** The first report of a call, when the callback lets it pass. *)
Lemma report_passes self cb p s :
  (forall f, cb = Some f -> f p s = None) ->
  _report_progress (with_callback self cb) p s
  = (match cb with Some _ => [EvCallback p s] | None => [] end, Returned tt).
Proof.
  intros H. unfold _report_progress. cbn [_progress_callback with_callback].
  destruct cb as [f|]; [|reflexivity]. unfold bind, emit. rewrite (H f eq_refl). reflexivity.
Qed.

(** *** Scenarios *)

Definition zoo_url : string := "https://www.youtube.com/watch?v=8T_yCIqeK6s".
Definition live_url : string := "https://www.youtube.com/live/dQw4w9WgXcQ".

Definition zoo_info : gmap string pyval :=
  <["id" := VStr "8T_yCIqeK6s"]>
  (<["title" := VStr "Me at the zoo"]>
  (<["duration" := VInt 19]>
  (<["uploader" := VStr "jawed"]>
  (<["description" := VStr "The first video on YouTube."]> ∅)))).

(** A probe result whose duration is [None], as for a live stream. *)
Definition live_info : gmap string pyval :=
  <["id" := VStr "dQw4w9WgXcQ"]>
  (<["title" := VStr "Live now"]>
  (<["duration" := VNone]> ∅)).

Definition downloading (downloaded total : Z) : gmap string pyval :=
  <["status" := VStr "downloading"]>
  (<["downloaded_bytes" := VInt downloaded]>
  (<["total_bytes" := VInt total]> ∅)).

(** A progress event whose size is only estimated, and too low. *)
Definition downloading_estimated (downloaded estimate : Z) : gmap string pyval :=
  <["status" := VStr "downloading"]>
  (<["downloaded_bytes" := VInt downloaded]>
  (<["total_bytes_estimate" := VInt estimate]> ∅)).

Definition finished : gmap string pyval := <["status" := VStr "finished"]> ∅.

(** A probe result with no duration entry at all. *)
Definition untimed_info : gmap string pyval :=
  <["id" := VStr "8T_yCIqeK6s"]> (<["title" := VStr "Me at the zoo"]> ∅).

(** A world in which every outside call succeeds. *)
Definition calm_world (info : gmap string pyval) (events : list (gmap string pyval))
  : World :=
  {| now := 0;
     mkdir := fun _ => None;
     ydl_open := fun _ => None;
     extract_info := fun _ => Returned (Some info);
     transfer := fun _ => (events, None);
     prepare_filename := fun _ => Returned "out/video.webm";
     path_exists := fun _ => true;
     glob := fun _ _ => [] |}.


Definition silent : callback := fun _ _ => None.

Definition limited (m : Z) : YouTubeDownloader :=
  init (Some (assign default_config (SetMaxDuration (Some m)))).

(** All reports lie in [0, 100]. *)
Definition reports_in_range (t : list event) : bool :=
  forallb (fun ps => Qle_bool 0 (fst ps) && Qle_bool (fst ps) 100) (callbacks t).

(** *** Failures as data *)



(** *** The source URL *)

(** C10. Whatever record [download] returns, its [source_url] is the
    [url] argument. *)
Theorem download_source_url self w url output_dir cb r :
  outcome_of (download self w url output_dir cb) = Returned r ->
  source_url r = Some url.
Proof.
  intros Hr. pose proof (download_outcome self w url output_dir cb) as H.
  rewrite Hr in H. destruct H as [(msg & _ & ->) | (info & path & H)].
  - reflexivity.
  - tauto.
Qed.

Lemma download_source_url_witness :
  exists r,
    outcome_of (download (init None) (calm_world zoo_info [finished]) zoo_url "out"
                         (Some silent)) = Returned r
    /\ success r = true
    /\ source_url r = Some zoo_url.
Proof.
  eexists. split; [vm_compute; reflexivity|]. split; [reflexivity|].
  apply (download_source_url (init None) (calm_world zoo_info [finished]) zoo_url "out"
                             (Some silent)).
  vm_compute. reflexivity.
Defined.

(** *** The held callback and the held configuration *)

(** C4, as the code has it.  [download] stores its callback argument in
    the object on entry and never clears it: after the call, however it
    ended, the object holds exactly the callback of that call, and the
    configuration it had. *)
Theorem download_keeps_callback self w url output_dir cb :
  _progress_callback (fst (download self w url output_dir cb)) = cb
  /\ config (fst (download self w url output_dir cb)) = config self.
Proof. rewrite download_unfold. split; reflexivity. Qed.

(** C4 fails as stated: a fresh downloader holds no callback, and after
    one finished call it still holds the callback of that call. *)
Lemma callback_retained_after_return :
  _progress_callback (init None) = None
  /\ (exists r, outcome_of (download (init None) (calm_world zoo_info [finished]) zoo_url
                                     "out" (Some silent)) = Returned r)
  /\ _progress_callback
       (fst (download (init None) (calm_world zoo_info [finished]) zoo_url "out"
                      (Some silent)))
     = Some silent.
Proof.
  split; [reflexivity|]. split; [|reflexivity].
  eexists. vm_compute. reflexivity.
Qed.

(** C5, as the code has it.  A fresh configuration is wav, 16000 Hz,
    mono; the class is not frozen, so an assignment to a field succeeds
    and stores the value; [download] leaves the configuration held by the
    downloader as it was. *)
Theorem config_defaults_and_assignment :
  (audio_format default_config = wav
   /\ sample_rate default_config = Some 16000%Z
   /\ mono default_config = true)
  /\ (forall c a, setattr c a = Returned (assign c a))
  /\ (forall self w url output_dir cb,
        config (fst (download self w url output_dir cb)) = config self).
Proof.
  split; [repeat split|]. split; [reflexivity|].
  intros. rewrite download_unfold. reflexivity.
Qed.

(** C5 fails as stated: a field of a built configuration can be
    reassigned. *)
Lemma config_field_reassigned :
  mono default_config = true
  /\ (exists c, setattr default_config (SetMono false) = Returned c /\ mono c = false).
Proof. split; [reflexivity|]. eexists. split; reflexivity. Qed.

(** *** The duration limit *)

(** What a call has done once the probe has answered. *)
Definition probed_trace (url output_dir : string) (opts : gmap string optval)
    (cb : option callback) : list event :=
  [EvMkdir output_dir; EvOpen opts]
  ++ match cb with Some _ => [EvCallback 0 "Extracting video info..."] | None => [] end
  ++ [EvProbe url].

(** The call up to the duration check. *)
Lemma download_after_probe self w url output_dir cb info :
  validate_url url = true ->
  mkdir w output_dir = None ->
  ydl_open w (ydl_opts_for (config self) output_dir) = None ->
  (forall f, cb = Some f -> f 0%Q "Extracting video info..." = None) ->
  extract_info w url = Returned (Some info) ->
  let rest := handle w url (with_info (with_callback self cb) w url output_dir info) in
  snd (download self w url output_dir cb)
  = (probed_trace url output_dir (ydl_opts_for (config self) output_dir) cb ++ fst rest,
     snd rest).
Proof.
  intros Hurl Hmkdir Hopen Hcb Hinfo. cbv zeta.
  rewrite download_unfold. cbn [snd]. rewrite Hurl. cbn [negb].
  rewrite Hmkdir. unfold guarded. rewrite Hopen, Hinfo.
  rewrite (report_passes self cb _ _ Hcb).
  change (lift (Returned (Some info))) with (ret (Some info)). rewrite bind_ret.
  generalize (ydl_opts_for (config self) output_dir). intros opts.
  generalize (with_info (with_callback self cb) w url output_dir info).
  intros rest. unfold probed_trace.
  destruct rest as [t [r|e]]; destruct cb; cbn;
    try destruct (exn_cls e); reflexivity.
Qed.








(** *** A probe without a duration entry *)

(** C9. When the probed mapping has no [duration] entry, the duration
    is taken to be 0: for a limit that is unset or not negative the check
    does not reject, the transfer is started, and a successful result
    carries the duration 0. *)
Theorem missing_duration_counts_as_zero self w url output_dir cb info :
  validate_url url = true ->
  mkdir w output_dir = None ->
  ydl_open w (ydl_opts_for (config self) output_dir) = None ->
  (forall f, cb = Some f ->
     f 0%Q "Extracting video info..." = None /\ f 5%Q "Downloading audio..." = None) ->
  extract_info w url = Returned (Some info) ->
  info !! "duration" = None ->
  (forall m, max_duration (config self) = Some m -> (0 <= m)%Z) ->
  exceeds_limit (config self) (dict_get info "duration" (VInt 0)) = Returned false
  /\ In (EvTransfer url) (trace_of (download self w url output_dir cb))
  /\ (forall r, outcome_of (download self w url output_dir cb) = Returned r ->
                success r = true -> duration r = VInt 0).
Proof.
  intros Hurl Hmkdir Hopen Hcb Hinfo Hnone Hlimit.
  assert (dict_get info "duration" (VInt 0) = VInt 0) as Hd
    by (unfold dict_get; rewrite Hnone; reflexivity).
  assert (exceeds_limit (config self) (VInt 0) = Returned false) as Hgate.
  { unfold exceeds_limit. destruct (max_duration (config self)) as [m|] eqn:Hm; [|reflexivity].
    simpl. destruct (m =? 0)%Z; [reflexivity|]. simpl.
    specialize (Hlimit m eq_refl). f_equal. apply Z.ltb_ge. exact Hlimit. }
  rewrite Hd. split; [exact Hgate|]. split.
  - pose proof (download_after_probe self w url output_dir cb info Hurl Hmkdir Hopen
                  (fun f Hf => proj1 (Hcb f Hf)) Hinfo) as Hrun.
    cbv zeta in Hrun. unfold trace_of. rewrite Hrun. cbn [fst].
    apply in_or_app. right. rewrite handle_events.
    unfold with_info. cbn [config with_callback]. rewrite Hd, Hgate.
    change (lift (Returned false)) with (@ret bool false). rewrite bind_ret.
    eapply bind_events_r.
    + rewrite (report_passes self cb _ _ (fun f Hf => proj2 (Hcb f Hf))). reflexivity.
    + apply bind_events_l. left. reflexivity.
  - intros r Hr Hs. pose proof (download_outcome self w url output_dir cb) as H.
    rewrite Hr in H. destruct H as [(msg & _ & ->) | (info' & path & Hinfo' & _ & _ & _ & Hdur & _)].
    + discriminate.
    + rewrite Hinfo in Hinfo'. injection Hinfo' as <-. rewrite Hdur. exact Hd.
Qed.

Lemma missing_duration_witness :
  let run := download (limited 60) (calm_world untimed_info [finished]) zoo_url "out"
                      (Some silent) in
  exceeds_limit (config (limited 60)) (dict_get untimed_info "duration" (VInt 0))
  = Returned false
  /\ In (EvTransfer zoo_url) (trace_of run)
  /\ (exists r, outcome_of run = Returned r /\ success r = true /\ duration r = VInt 0).
Proof.
  cbv zeta.
  pose proof (missing_duration_counts_as_zero
                (limited 60) (calm_world untimed_info [finished]) zoo_url "out"
                (Some silent) untimed_info) as H.
  destruct H as (Hgate & Hstart & Hzero).
  - reflexivity.
  - reflexivity.
  - reflexivity.
  - intros f [= <-]. split; reflexivity.
  - reflexivity.
  - vm_compute. reflexivity.
  - intros m [= <-]. discriminate.
  - split; [exact Hgate|]. split; [exact Hstart|].
    eexists. split; [vm_compute; reflexivity|]. split; [reflexivity|].
    apply Hzero; vm_compute; reflexivity.
Defined.

(** *** The pairing of the result fields *)

(** C3 at the failing input.  The probe answers with a mapping whose
    [duration] entry is [None]; no limit is configured, so the entry is
    never compared; the download succeeds and the record says
    [success=True] with [duration=None], on which [__repr__] raises. *)
Theorem success_with_absent_duration :
  let run := download (init None) (calm_world live_info [finished]) live_url "out" None in
  validate_url live_url = true
  /\ exists r,
       outcome_of run = Returned r
       /\ success r = true
       /\ duration r = VNone
       /\ error_message r = None
       /\ exists e, repr r = Raised e.
Proof.
  cbv zeta. split; [reflexivity|].
  eexists. split; [vm_compute; reflexivity|].
  split; [reflexivity|]. split; [reflexivity|]. split; [reflexivity|].
  eexists. reflexivity.
Qed.

(** *** Progress reports *)


(** C8 at the failing input.  The size of the transfer is only
    estimated, at 1000 bytes, and 2000 bytes have arrived: the hook
    reports 175 percent, outside [5, 90] and outside [0, 100]; the other
    reports of the call are 0, 5, 90 and 100. *)
Theorem progress_report_leaves_range :
  let w := calm_world zoo_info [downloading_estimated 2000 1000; finished] in
  let run := download (init None) w zoo_url "out" (Some silent) in
  map snd (callbacks (trace_of run))
  = ["Extracting video info..."; "Downloading audio..."; "Downloading... ...";
     "Converting audio..."; "Download complete!"]
  /\ Forall2 Qeq (map fst (callbacks (trace_of run))) [0; 5; 175; 90; 100]%Q
  /\ reports_in_range (trace_of run) = false
  /\ exists r, outcome_of run = Returned r /\ success r = true.
Proof.
  cbv zeta. split; [vm_compute; reflexivity|]. split.
  - vm_compute. repeat constructor.
  - split; [vm_compute; reflexivity|].
    eexists. split; [vm_compute; reflexivity | reflexivity].
Qed.

End DownloadFacts.

(** * The rest of the module *)

(** ** [extract_video_id] *)

Module VideoId.

Import Re ReFacts YouTube UrlFacts.

(** [n] successive matches of [f], keeping the text the group took in
    the last repetition where it took part. *)
Fixpoint times_groups (f : list ascii -> list (option (list ascii) * list ascii))
    (n : nat) (g : option (list ascii)) (s : list ascii)
  : list (option (list ascii) * list ascii) :=
  match n with
  | O => [(g, s)]
  | S k =>
      flat_map (fun m => times_groups f k (match fst m with Some t => Some t | None => g end)
                                      (snd m))
               (f s)
  end.

(** The matches of [r] at the start of [s] in the order a backtracking
    matcher finds them, each with the text taken by the capturing group
    of [r] ([None] when the group took no part) and the unconsumed rest.
    For patterns with at most one capturing group, as all of
    [YOUTUBE_PATTERNS] are. *)
Fixpoint groups (r : regex) (s : list ascii) : list (option (list ascii) * list ascii) :=
  match r with
  | Lit l => match strip l s with Some rest => [(None, rest)] | None => [] end
  | Class p => match s with
               | c :: rest => if p c then [(None, rest)] else []
               | [] => []
               end
  | Cat r1 r2 =>
      flat_map (fun m1 =>
                  map (fun m2 => (match fst m2 with Some t => Some t | None => fst m1 end,
                                  snd m2))
                      (groups r2 (snd m1)))
               (groups r1 s)
  | Opt r1 => groups r1 s ++ [(None, s)]
  | Rep n r1 => times_groups (groups r1) n None s
  | Group r1 =>
      map (fun m => (Some (firstn (length s - length (snd m)) s), snd m)) (groups r1 s)
  end.

(** The loop of [extract_video_id]: the group of the first pattern that
    matches. *)
Fixpoint first_group (patterns : list regex) (s : list ascii)
  : option (option (list ascii)) :=
  match patterns with
  | [] => None
  | pattern :: others =>
      match groups pattern s with
      | m :: _ => Some (fst m)
      | [] => first_group others s
      end
  end.

Definition extract_video_id (url : string) : option string :=
  match first_group YOUTUBE_PATTERNS (list_ascii_of_string url) with
  | Some (Some id) => Some (string_of_list_ascii id)
  | _ => None
  end.

(** Forgetting the group gives the matcher of [re_match]. *)
Lemma times_groups_rests f f' :
  (forall s, map snd (f s) = f' s) ->
  forall n g s, map snd (times_groups f n g s) = times f' n s.
Proof.
  intros Hf n. induction n as [|n IH]; intros g s; simpl; [reflexivity|].
  rewrite <- Hf. generalize (f s). intros l.
  induction l as [|m l IHl]; simpl; [reflexivity|].
  rewrite map_app, IH, IHl. reflexivity.
Qed.

Lemma groups_rests r : forall s, map snd (groups r s) = rests r s.
Proof.
  induction r as [l|p|r1 IH1 r2 IH2|r1 IH1|n r1 IH1|r1 IH1]; intros s; simpl.
  - destruct (strip l s); reflexivity.
  - destruct s as [|c s]; [reflexivity|]. destruct (p c); reflexivity.
  - rewrite <- IH1. generalize (groups r1 s). intros l.
    induction l as [|m l IHl]; simpl; [reflexivity|].
    rewrite map_app, IHl, map_map. simpl. rewrite <- IH2. reflexivity.
  - rewrite map_app, IH1. reflexivity.
  - apply times_groups_rests. exact IH1.
  - rewrite map_map. simpl. apply IH1.
Qed.

Lemma times_groups_class p n : forall w g rest,
  length w = n -> forallb p w = true ->
  times_groups (groups (Class p)) n g (w ++ rest) = [(g, rest)].
Proof.
  induction n as [|n IH]; intros w g rest Hlen Hall.
  - destruct w; [reflexivity | discriminate].
  - destruct w as [|c w]; [discriminate|].
    simpl in Hall. apply andb_true_iff in Hall as [Hc Hall].
    simpl. rewrite Hc. simpl. rewrite IH by (simpl in Hlen; auto with arith).
    reflexivity.
Qed.

Lemma groups_video_id w rest :
  length w = 11 -> forallb id_char w = true ->
  groups video_id (w ++ rest) = [(Some w, rest)].
Proof.
  intros Hlen Hall. unfold video_id.
  change (groups (Group (Rep 11 (Class id_char))) (w ++ rest))
    with (map (fun m => (Some (firstn (length (w ++ rest) - length (snd m)) (w ++ rest)),
                         snd m))
              (times_groups (groups (Class id_char)) 11 None (w ++ rest))).
  rewrite (times_groups_class id_char 11 w None rest Hlen Hall).
  cbn [map fst snd]. rewrite length_app, Nat.add_sub, take_app_length. reflexivity.
Qed.

(** A pattern that ends in its group always captures. *)
Lemma groups_pattern_captures site s m :
  In m (groups (scheme_www (Cat (lit site) video_id)) s) -> exists id, fst m = Some id.
Proof.
  unfold scheme_www. cbn [groups]. intros H.
  apply in_flat_map in H as (m1 & _ & H). apply in_map_iff in H as (m2 & <- & H).
  apply in_flat_map in H as (m3 & _ & H). apply in_map_iff in H as (m4 & <- & H).
  apply in_flat_map in H as (m5 & _ & H). apply in_map_iff in H as (m6 & <- & H).
  unfold video_id in H. cbn [groups] in H. apply in_map_iff in H as (m7 & <- & _).
  cbn [fst]. eauto.
Qed.

Lemma first_group_none patterns s :
  first_group patterns s = None <-> forall r, In r patterns -> rests r s = [].
Proof.
  induction patterns as [|r patterns IH]; simpl.
  - split; [intros _ r [] | reflexivity].
  - destruct (groups r s) as [|m l] eqn:E.
    + rewrite IH. split.
      * intros H r' [<-|Hin]; [rewrite <- groups_rests, E; reflexivity | auto].
      * intros H r' Hin. apply H. auto.
    + split; [discriminate|]. intros H. specialize (H r (or_introl eq_refl)).
      rewrite <- groups_rests, E in H. discriminate.
Qed.

Lemma first_group_captures s g :
  first_group YOUTUBE_PATTERNS s = Some g -> exists id, g = Some id.
Proof.
  rewrite patterns_by_site. generalize sites. intros l.
  induction l as [|site l IH]; cbn [first_group map]; [discriminate|].
  destruct (groups (scheme_www (Cat (lit site) video_id)) s) as [|m ms] eqn:E; [exact IH|].
  intros [= <-]. apply (groups_pattern_captures site s). rewrite E. left. reflexivity.
Qed.

Lemma validate_url_false url :
  validate_url url = false <->
  forall r, In r YOUTUBE_PATTERNS -> rests r (list_ascii_of_string url) = [].
Proof.
  unfold validate_url. rewrite <- not_true_iff_false, existsb_exists. unfold re_match. split.
  - intros H r Hin. destruct (rests r (list_ascii_of_string url)) eqn:E; [reflexivity|].
    exfalso. apply H. exists r. rewrite E. auto.
  - intros H (r & Hin & Hm). rewrite (H r Hin) in Hm. discriminate.
Qed.

Lemma extract_none_iff url : extract_video_id url = None <-> validate_url url = false.
Proof.
  rewrite validate_url_false, <- first_group_none. unfold extract_video_id.
  destruct (first_group YOUTUBE_PATTERNS (list_ascii_of_string url)) as [g|] eqn:E.
  - apply first_group_captures in E as (id & ->). split; discriminate.
  - split; reflexivity.
Qed.

(** X2. [extract_video_id] finds an identifier exactly for the URLs that
    [validate_url] accepts. *)
Theorem extract_video_id_none_iff_invalid :
  forall url, extract_video_id url = None <-> validate_url url = false.
Proof. intros url. apply extract_none_iff. Qed.

Lemma first_group_accepted scheme www site w rest :
  In scheme schemes -> In www www_prefixes -> In site sites ->
  length w = 11 -> forallb id_char w = true ->
  first_group YOUTUBE_PATTERNS
    (list_ascii_of_string scheme ++ list_ascii_of_string www
     ++ list_ascii_of_string site ++ w ++ rest)
  = Some (Some w).
Proof.
  intros Hscheme Hwww Hsite Hlen Hall.
  pose proof (groups_video_id w rest Hlen Hall) as Hid.
  unfold schemes, www_prefixes, sites in *. simpl in Hscheme, Hwww, Hsite.
  destruct Hscheme as [<-|[<-|[<-|[]]]]; destruct Hwww as [<-|[<-|[]]];
    destruct Hsite as [<-|[<-|[<-|[<-|[]]]]];
    cbn -[video_id]; rewrite Hid; reflexivity.
Qed.

Lemma extract_accepted scheme www site id rest :
  In scheme schemes -> In www www_prefixes -> In site sites ->
  String.length id = 11 ->
  forallb id_char (list_ascii_of_string id) = true ->
  extract_video_id (scheme +:+ www +:+ site +:+ id +:+ rest) = Some id.
Proof.
  intros Hscheme Hwww Hsite Hlen Hall. unfold extract_video_id.
  rewrite !list_ascii_of_string_app.
  rewrite (first_group_accepted scheme www site _ _ Hscheme Hwww Hsite); [|
    rewrite <- Hlen; clear; induction id; simpl; auto | exact Hall].
  rewrite string_of_list_ascii_of_string. reflexivity.
Qed.

(** X1. Round trip: from a URL put together from an optional scheme, an
    optional [www.], one of the four site paths, an identifier of eleven
    characters of the class and any rest, [extract_video_id] gives back
    the identifier. *)
Theorem extract_video_id_of_accepted scheme www site id rest :
  In scheme schemes -> In www www_prefixes -> In site sites ->
  String.length id = 11 ->
  forallb id_char (list_ascii_of_string id) = true ->
  extract_video_id (scheme +:+ www +:+ site +:+ id +:+ rest) = Some id.
Proof. intros. apply extract_accepted; assumption. Qed.

Lemma extract_video_id_of_accepted_witness :
  extract_video_id ("https://" +:+ "www." +:+ "youtube.com/shorts/" +:+ "dQw4w9WgXcQ"
                    +:+ "?feature=share")
  = Some "dQw4w9WgXcQ".
Proof.
  apply (extract_video_id_of_accepted "https://" "www." "youtube.com/shorts/"
                                      "dQw4w9WgXcQ" "?feature=share").
  - simpl. auto.
  - simpl. auto.
  - simpl. auto.
  - reflexivity.
  - reflexivity.
Defined.

(** X3. What [extract_video_id] returns is eleven characters of the
    class [[a-zA-Z0-9_-]], and it is the part of the URL that follows the
    optional scheme, the optional [www.] and one of the four site paths. *)
Theorem extract_video_id_sound url id :
  extract_video_id url = Some id ->
  String.length id = 11
  /\ forallb id_char (list_ascii_of_string id) = true
  /\ exists scheme www site rest,
       In scheme schemes /\ In www www_prefixes /\ In site sites
       /\ url = scheme +:+ www +:+ site +:+ id +:+ rest.
Proof.
  intros Hid.
  assert (validate_url url = true) as Hvalid.
  { destruct (validate_url url) eqn:E; [reflexivity|].
    apply extract_none_iff in E. congruence. }
  apply validate_url_accepted in Hvalid
    as (scheme & www & site & id' & rest & Hscheme & Hwww & Hsite & Hlen & Hall & ->).
  rewrite (extract_accepted scheme www site id' rest
             Hscheme Hwww Hsite Hlen Hall) in Hid.
  injection Hid as <-. split; [exact Hlen|]. split; [exact Hall|].
  exists scheme, www, site, rest. auto.
Qed.

Lemma extract_video_id_sound_witness :
  String.length "dQw4w9WgXcQ" = 11
  /\ exists scheme www site rest,
       In scheme schemes /\ In www www_prefixes /\ In site sites
       /\ "youtu.be/dQw4w9WgXcQ?t=42" = scheme +:+ www +:+ site +:+ "dQw4w9WgXcQ" +:+ rest.
Proof.
  destruct (extract_video_id_sound "youtu.be/dQw4w9WgXcQ?t=42" "dQw4w9WgXcQ")
    as (Hlen & _ & Hform).
  - vm_compute. reflexivity.
  - split; [exact Hlen | exact Hform].
Defined.

End VideoId.

(** ** The progress hook *)

Module HookFacts.

Import Config Base YouTube Outcomes.

Lemma bind_lift_returned {A B} (a : A) (k : A -> M B) : bind (lift (Returned a)) k = k a.
Proof. apply bind_ret. Qed.

Lemma bind_lift_raised {A B} (e : exn) (k : A -> M B) :
  bind (lift (Raised e)) k = ([], Raised e).
Proof. reflexivity. Qed.

Lemma fst_bind {A B} (m : M A) (k : A -> M B) :
  fst (bind m k)
  = fst m ++ match snd m with Returned a => fst (k a) | Raised _ => [] end.
Proof.
  unfold bind. destruct m as [t [a|e]]; simpl; [|rewrite app_nil_r; reflexivity].
  destruct (k a). reflexivity.
Qed.

Lemma snd_bind {A B} (m : M A) (k : A -> M B) :
  snd (bind m k) = match snd m with Returned a => snd (k a) | Raised e => Raised e end.
Proof. unfold bind. destruct m as [t [a|e]]; simpl; [|reflexivity]. destruct (k a). reflexivity. Qed.

(** The size the hook works with: [total_bytes] when it is there and not
    zero, the estimate otherwise. *)
Definition known_total (d : gmap string pyval) (t : Z) : Prop :=
  (d !! "total_bytes" = Some (VInt t) /\ t <> 0%Z)
  \/ ((d !! "total_bytes" = None \/ d !! "total_bytes" = Some VNone
       \/ d !! "total_bytes" = Some (VInt 0))
      /\ d !! "total_bytes_estimate" = Some (VInt t)).

Lemma known_total_or d t :
  known_total d t ->
  py_or (dict_get d "total_bytes" VNone) (dict_get d "total_bytes_estimate" (VInt 0))
  = VInt t.
Proof.
  unfold known_total, py_or, dict_get.
  intros [[-> Hnz] | [[-> | [-> | ->]] ->]]; try reflexivity.
  simpl. destruct (t =? 0)%Z eqn:E; [apply Z.eqb_eq in E; contradiction | reflexivity].
Qed.

(** The transfer-rate text of a report. *)
Definition speed_text (d : gmap string pyval) : string :=
  match d !! "speed" with
  | Some (VInt z) =>
      if (z =? 0)%Z then "..."
      else format_1f (inject_Z z / inject_Z 1024 / 1024)%Q +:+ " MB/s"
  | _ => "..."
  end.

Lemma report_with_callback self f p s :
  _progress_callback self = Some f ->
  _report_progress self p s
  = ([EvCallback p s], match f p s with Some e => Raised e | None => Returned tt end).
Proof.
  intros H. unfold _report_progress. rewrite H. unfold bind, emit, lift_unit.
  destruct (f p s); reflexivity.
Qed.

Lemma report_without_callback self p s :
  _progress_callback self = None -> _report_progress self p s = ([], Returned tt).
Proof. intros H. unfold _report_progress. rewrite H. reflexivity. Qed.

Lemma speed_str_ret d :
  (forall v, d !! "speed" = Some v -> v = VNone \/ exists z, v = VInt z) ->
  (if truthy (py_or (dict_get d "speed" (VInt 0)) (VInt 0))
   then kb <- lift (py_div (py_or (dict_get d "speed" (VInt 0)) (VInt 0)) (VInt 1024)) ;;
        ret (format_1f (kb / 1024)%Q +:+ " MB/s")
   else ret "...")
  = ret (speed_text d).
Proof.
  intros Hspeed. unfold speed_text, dict_get.
  destruct (d !! "speed") as [v|] eqn:Hv; [|reflexivity].
  destruct (Hspeed v eq_refl) as [-> | [z ->]]; [reflexivity|].
  unfold py_or. cbn [truthy]. destruct (z =? 0)%Z eqn:Ez; cbn [negb]; [reflexivity|].
  cbn [truthy]. rewrite Ez. reflexivity.
Qed.

(** What the hook does with a well-formed byte-progress event. *)
Lemma hook_downloading self d t dl :
  d !! "status" = Some (VStr "downloading") ->
  known_total d t -> (0 < t)%Z ->
  dict_get d "downloaded_bytes" (VInt 0) = VInt dl ->
  (forall v, d !! "speed" = Some v -> v = VNone \/ exists z, v = VInt z) ->
  _progress_hook self d
  = _report_progress self (5 + inject_Z dl / inject_Z t * 85)%Q
                     ("Downloading... " +:+ speed_text d).
Proof.
  intros Hstatus Htotal Hpos Hdl Hspeed. unfold _progress_hook. rewrite Hstatus.
  destruct (decide (VStr "downloading" = VStr "downloading")) as [_|Hne]; [|congruence].
  rewrite (known_total_or d t Htotal).
  rewrite Hdl.
  cbn [py_gt]. apply Z.ltb_lt in Hpos as Hpos'. rewrite Hpos'. rewrite bind_lift_returned.
  cbn [py_div]. destruct (t =? 0)%Z eqn:E; [apply Z.eqb_eq in E; lia|].
  rewrite bind_lift_returned.
  rewrite (speed_str_ret d Hspeed), bind_ret. reflexivity.
Qed.

(** A size that is not known: no usable [total_bytes], and an estimate
    that is missing or not positive. *)
Definition unknown_total (d : gmap string pyval) : Prop :=
  (d !! "total_bytes" = None \/ d !! "total_bytes" = Some VNone
   \/ d !! "total_bytes" = Some (VInt 0))
  /\ (d !! "total_bytes_estimate" = None
      \/ exists z, d !! "total_bytes_estimate" = Some (VInt z) /\ (z <= 0)%Z).



(** X5. The hook does nothing at all, and raises nothing, for an event
    whose status is neither [downloading] nor [finished], and for a
    [downloading] event whose size is not known; the byte count is not
    looked at then. *)
Theorem progress_hook_silent self d :
  (exists v, d !! "status" = Some v /\ v <> VStr "downloading" /\ v <> VStr "finished")
  \/ (d !! "status" = Some (VStr "downloading") /\ unknown_total d) ->
  _progress_hook self d = ([], Returned tt).
Proof.
  unfold _progress_hook.
  intros [(v & -> & Hd & Hf) | (-> & Htot & Hest)].
  - destruct (decide (v = VStr "downloading")); [contradiction|].
    destruct (decide (v = VStr "finished")); [contradiction|]. reflexivity.
  - destruct (decide (VStr "downloading" = VStr "downloading")) as [_|Hne]; [|congruence].
    assert (exists z, py_or (dict_get d "total_bytes" VNone)
                            (dict_get d "total_bytes_estimate" (VInt 0)) = VInt z
                      /\ (z <= 0)%Z) as (z & -> & Hz).
    { assert (truthy (dict_get d "total_bytes" VNone) = false) as Hfalsy
        by (unfold dict_get; destruct Htot as [H | [H | H]]; rewrite H; reflexivity).
      unfold py_or. rewrite Hfalsy. unfold dict_get.
      destruct Hest as [H | (z & H & Hz)]; rewrite H.
      - exists 0%Z. split; [reflexivity | lia].
      - exists z. split; [reflexivity | exact Hz]. }
    cbn [py_gt]. apply Z.ltb_ge in Hz. rewrite Hz, bind_lift_returned. reflexivity.
Qed.

Lemma progress_hook_silent_witness :
  _progress_hook (init None) (<["status" := VStr "error"]> ∅) = ([], Returned tt)
  /\ _progress_hook (init None)
       (<["status" := VStr "downloading"]> (<["downloaded_bytes" := VNone]> ∅))
     = ([], Returned tt).
Proof.
  split.
  - apply progress_hook_silent. left. exists (VStr "error").
    split; [vm_compute; reflexivity|]. split; discriminate.
  - apply progress_hook_silent. right. split; [vm_compute; reflexivity|].
    split; left; vm_compute; reflexivity.
Defined.

(** X6. A [downloading] event that has no usable [total_bytes] and
    whose [total_bytes_estimate] entry is [None] makes the hook raise a
    [TypeError] before any report: [d.get("total_bytes_estimate", 0)]
    replaces a missing key only, and [None > 0] is not defined. *)
Theorem progress_hook_estimate_none self d :
  d !! "status" = Some (VStr "downloading") ->
  (d !! "total_bytes" = None \/ d !! "total_bytes" = Some VNone
   \/ d !! "total_bytes" = Some (VInt 0)) ->
  d !! "total_bytes_estimate" = Some VNone ->
  _progress_hook self d
  = ([], Raised (mkExn OtherException
                       "'>' not supported between instances of 'NoneType' and 'int'")).
Proof.
  intros Hstatus Htot Hest. unfold _progress_hook. rewrite Hstatus.
  destruct (decide (VStr "downloading" = VStr "downloading")) as [_|Hne]; [|congruence].
  unfold py_or, dict_get. rewrite Hest.
  destruct Htot as [-> | [-> | ->]]; reflexivity.
Qed.

Lemma progress_hook_estimate_none_witness :
  _progress_hook (init None)
    (<["status" := VStr "downloading"]>
     (<["downloaded_bytes" := VInt 10]>
      (<["total_bytes" := VNone]> (<["total_bytes_estimate" := VNone]> ∅))))
  = ([], Raised (mkExn OtherException
                       "'>' not supported between instances of 'NoneType' and 'int'")).
Proof.
  apply progress_hook_estimate_none.
  - vm_compute. reflexivity.
  - right. left. vm_compute. reflexivity.
  - vm_compute. reflexivity.
Defined.

End HookFacts.

(** ** What a call does, step by step *)

Module CallFacts.

Import Config Base YouTube Outcomes DownloadFacts HookFacts.

(** The calls of a trace that leave the process: everything but the
    progress reports. *)
Fixpoint outside_calls (t : list event) : list event :=
  match t with
  | [] => []
  | EvCallback _ _ :: rest => outside_calls rest
  | ev :: rest => ev :: outside_calls rest
  end.

Lemma outside_calls_app a b : outside_calls (a ++ b) = outside_calls a ++ outside_calls b.
Proof.
  induction a as [|ev a IH]; [reflexivity|].
  destruct ev; simpl; rewrite IH; reflexivity.
Qed.

Lemma callbacks_app a b : callbacks (a ++ b) = callbacks a ++ callbacks b.
Proof.
  induction a as [|ev a IH]; [reflexivity|].
  destruct ev; simpl; rewrite IH; reflexivity.
Qed.

(** The one report a call makes at a fixed point, if a callback is held. *)
Definition report_event (cb : option callback) (p : Q) (s : string) : list event :=
  match cb with Some _ => [EvCallback p s] | None => [] end.

Lemma fst_report self p s :
  fst (_report_progress self p s) = report_event (_progress_callback self) p s.
Proof.
  unfold _report_progress, report_event. destruct (_progress_callback self) as [f|];
    [|reflexivity].
  unfold bind, emit, lift_unit. destruct (f p s); reflexivity.
Qed.

(** Where [download] looks for the file it has written. *)
Definition locate (cfg : DownloadConfig) (w : World) (output_dir filename : string)
  : option string :=
  let expected_path := rsplit_dot_head filename +:+ "." +:+ format_name (audio_format cfg) in
  if path_exists w expected_path then Some expected_path
  else
    match glob w output_dir ("*." +:+ format_name (audio_format cfg)) with
    | [] => None
    | f :: rest => Some (fst (max_by_mtime f rest))
    end.

(** The record of a success. *)
Definition success_record (w : World) (url : string) (info : gmap string pyval)
    (path : string) (description : pyval) : DownloadResult :=
  {| success := true;
     file_path := Some path;
     title := dict_get info "title" (VStr "unknown");
     duration := dict_get info "duration" (VInt 0);
     source_url := Some url;
     error_message := None;
     metadata :=
       <["video_id" := dict_get info "id" VNone]>
       (<["uploader" := dict_get info "uploader" VNone]>
       (<["upload_date" := dict_get info "upload_date" VNone]>
       (<["view_count" := dict_get info "view_count" VNone]>
       (<["description" := description]> ∅))));
     downloaded_at := now w |}.

(** The steps behind a success of the second half of the [try] body. *)
Lemma with_info_success self w url output_dir info r :
  snd (with_info self w url output_dir info) = Returned r ->
  success r = true ->
  exists filename path description,
    exceeds_limit (config self) (dict_get info "duration" (VInt 0)) = Returned false
    /\ snd (_report_progress self 5 "Downloading audio...") = Returned tt
    /\ snd (run_hooks self (fst (transfer w url))) = Returned tt
    /\ snd (transfer w url) = None
    /\ prepare_filename w info = Returned filename
    /\ locate (config self) w output_dir filename = Some path
    /\ snd (_report_progress self 100 "Download complete!") = Returned tt
    /\ slice_500 (dict_get info "description" (VStr "")) = Returned description
    /\ r = success_record w url info path description
    /\ fst (with_info self w url output_dir info)
       = fst (_report_progress self 5 "Downloading audio...")
         ++ [EvTransfer url]
         ++ fst (run_hooks self (fst (transfer w url)))
         ++ fst (_report_progress self 100 "Download complete!").
Proof.
  unfold with_info.
  destruct (exceeds_limit (config self) (dict_get info "duration" (VInt 0)))
    as [[|]|e] eqn:Hgate.
  - rewrite bind_lift_returned. cbn [snd ret].
    intros Hr Hs. injection Hr as Hr. rewrite <- Hr in Hs. discriminate Hs.
  - rewrite bind_lift_returned.
    destruct (_report_progress self 5 "Downloading audio...") as [t5 [[]|e5]] eqn:H5;
      [|discriminate].
    destruct (run_hooks self (fst (transfer w url))) as [th [[]|eh]] eqn:Hh;
      [|discriminate].
    destruct (snd (transfer w url)) as [et|] eqn:Ht; [discriminate|].
    destruct (prepare_filename w info) as [filename|ef] eqn:Hf; [|discriminate].
    cbn [bind emit lift lift_unit ret fst snd app].
    match goal with
    | |- context [match ?x with Some _ => _ | None => _ end] =>
        change x with (locate (config self) w output_dir filename)
    end.
    destruct (locate (config self) w output_dir filename) as [path|] eqn:Hloc.
    2:{ cbn [bind emit lift lift_unit ret fst snd app].
        intros Hr Hs. injection Hr as Hr. rewrite <- Hr in Hs. discriminate Hs. }
    destruct (_report_progress self 100 "Download complete!") as [t100 [[]|e100]] eqn:H100;
      [|discriminate].
    destruct (slice_500 (dict_get info "description" (VStr ""))) as [description|es] eqn:Hs;
      [|discriminate].
    cbn [bind emit lift lift_unit ret fst snd app].
    intros Hr _. injection Hr as Hr. exists filename, path, description.
    repeat (split; [first [reflexivity | exact Hloc | symmetry; exact Hr]|]).
    rewrite !app_nil_r. reflexivity.
  - discriminate.
Qed.

Ltac absurd_result :=
  let Hr := fresh "Hr" in
  let Hs := fresh "Hs" in
  cbn [fst snd]; intros Hr Hs;
  first [ discriminate Hr
        | injection Hr as Hr; rewrite <- Hr in Hs; discriminate Hs ].

(** The steps behind a success of [download]. *)
Lemma download_success self w url output_dir cb r :
  outcome_of (download self w url output_dir cb) = Returned r ->
  success r = true ->
  exists info,
    validate_url url = true
    /\ mkdir w output_dir = None
    /\ ydl_open w (ydl_opts_for (config self) output_dir) = None
    /\ snd (_report_progress (with_callback self cb) 0 "Extracting video info...")
       = Returned tt
    /\ extract_info w url = Returned (Some info)
    /\ snd (with_info (with_callback self cb) w url output_dir info) = Returned r
    /\ trace_of (download self w url output_dir cb)
       = [EvMkdir output_dir; EvOpen (ydl_opts_for (config self) output_dir)]
         ++ fst (_report_progress (with_callback self cb) 0 "Extracting video info...")
         ++ [EvProbe url]
         ++ fst (with_info (with_callback self cb) w url output_dir info).
Proof.
  unfold outcome_of, trace_of. rewrite download_unfold. cbn [snd].
  destruct (validate_url url); cbn [negb]; [|absurd_result].
  remember (ydl_opts_for (config self) output_dir) as opts eqn:Hopts.
  unfold guarded.
  destruct (mkdir w output_dir) as [em|] eqn:Hmkdir; [absurd_result|].
  destruct (ydl_open w opts) as [eo|] eqn:Hopen.
  { cbn [bind emit lift lift_unit ret raise fst snd app handle].
    destruct (exn_cls eo); absurd_result. }
  destruct (_report_progress (with_callback self cb) 0 "Extracting video info...")
    as [t0 [[]|e0]] eqn:H0.
  2:{ cbn [bind emit lift lift_unit ret raise fst snd app handle].
      destruct (exn_cls e0); absurd_result. }
  destruct (extract_info w url) as [[info|]|ei] eqn:Hinfo.
  3:{ cbn [bind emit lift lift_unit ret raise fst snd app handle].
      destruct (exn_cls ei); absurd_result. }
  2:{ cbn [bind emit lift lift_unit ret raise fst snd app handle]. absurd_result. }
  cbn [bind emit lift lift_unit ret raise fst snd app].
  destruct (with_info (with_callback self cb) w url output_dir info) as [ti [ri|ew]] eqn:Hw.
  2:{ cbn [bind emit lift lift_unit ret raise fst snd app handle].
      destruct (exn_cls ew); absurd_result. }
  cbn [bind emit lift lift_unit ret raise fst snd app handle].
  intros Hr Hs. injection Hr as ->. exists info. rewrite Hw.
  repeat (split; [reflexivity|]). reflexivity.
Qed.

(** All events of [m] satisfy [P]. *)
Definition trace_all {A} (P : event -> Prop) (m : M A) : Prop := Forall P (fst m).

Lemma trace_all_bind {A B} P (m : M A) (k : A -> M B) :
  trace_all P m -> (forall a, trace_all P (k a)) -> trace_all P (bind m k).
Proof.
  unfold trace_all. intros Hm Hk. rewrite fst_bind. apply Forall_app. split; [exact Hm|].
  destruct (snd m); [apply Hk | constructor].
Qed.

Lemma trace_all_nil {A} P (m : M A) : fst m = [] -> trace_all P m.
Proof. unfold trace_all. intros ->. constructor. Qed.

Lemma trace_all_emit P ev : P ev -> trace_all P (emit ev).
Proof. intros H. unfold trace_all. simpl. constructor; [exact H | constructor]. Qed.

Lemma trace_all_lift {A} P (o : outcome A) : trace_all P (lift o).
Proof. apply trace_all_nil. reflexivity. Qed.

Lemma trace_all_lift_unit P (o : option exn) : trace_all P (lift_unit o).
Proof. apply trace_all_nil. destruct o; reflexivity. Qed.

Lemma trace_all_ret {A} P (a : A) : trace_all P (ret a).
Proof. apply trace_all_nil. reflexivity. Qed.

Lemma trace_all_raise {A} P e : trace_all P (@raise A e).
Proof. apply trace_all_nil. reflexivity. Qed.

Lemma trace_all_report P self p s :
  (forall f, _progress_callback self = Some f -> P (EvCallback p s)) ->
  trace_all P (_report_progress self p s).
Proof.
  intros H. unfold trace_all. rewrite fst_report. unfold report_event.
  destruct (_progress_callback self) as [f|]; [|constructor].
  constructor; [apply (H f eq_refl) | constructor].
Qed.

Lemma trace_all_handle P w url m : trace_all P m -> trace_all P (handle w url m).
Proof. unfold trace_all. rewrite handle_events. auto. Qed.

(** The hook and the tail of the call emit nothing but reports, and
    reports only when a callback is held. *)
Definition report_if_held (self : YouTubeDownloader) (ev : event) : Prop :=
  match ev with
  | EvCallback _ _ => exists f, _progress_callback self = Some f
  | _ => False
  end.

Lemma hook_reports self d : trace_all (report_if_held self) (_progress_hook self d).
Proof.
  unfold _progress_hook.
  destruct (d !! "status") as [status|]; [|apply trace_all_raise].
  destruct (decide (status = VStr "downloading")).
  - apply trace_all_bind; [apply trace_all_lift|]. intros [|]; [|apply trace_all_ret].
    apply trace_all_bind; [apply trace_all_lift|]. intros fraction.
    apply trace_all_bind.
    + destruct (truthy _); [|apply trace_all_ret].
      apply trace_all_bind; [apply trace_all_lift|]. intros kb. apply trace_all_ret.
    + intros speed_str. apply trace_all_report. intros f Hf. exists f. exact Hf.
  - destruct (decide (status = VStr "finished")); [|apply trace_all_ret].
    apply trace_all_report. intros f Hf. exists f. exact Hf.
Qed.

Lemma run_hooks_reports self ds : trace_all (report_if_held self) (run_hooks self ds).
Proof.
  induction ds as [|d ds IH]; simpl; [apply trace_all_ret|].
  apply trace_all_bind; [apply hook_reports | intros _; exact IH].
Qed.

Lemma reports_no_outside_calls self t :
  Forall (report_if_held self) t -> outside_calls t = [].
Proof.
  induction 1 as [|ev t Hev _ IH]; [reflexivity|].
  destruct ev; simpl in *; try contradiction. exact IH.
Qed.

Lemma reports_none_held self t :
  _progress_callback self = None -> Forall (report_if_held self) t -> t = [].
Proof.
  intros Hnone Hall. destruct Hall as [|ev t Hev _]; [reflexivity|].
  destruct ev; simpl in Hev; try contradiction. destruct Hev as [f Hf]. congruence.
Qed.

Lemma outside_calls_report cb p s : outside_calls (report_event cb p s) = [].
Proof. destruct cb; reflexivity. Qed.

(** The steps of a call in the order in which [download] makes them. *)
Definition steps (cfg : DownloadConfig) (url output_dir : string) : list event :=
  [EvMkdir output_dir; EvOpen (ydl_opts_for cfg output_dir); EvProbe url; EvTransfer url].

Lemma with_info_calls self w url output_dir info :
  outside_calls (fst (with_info self w url output_dir info)) = []
  \/ outside_calls (fst (with_info self w url output_dir info)) = [EvTransfer url].
Proof.
  unfold with_info. rewrite fst_bind. cbn [lift fst snd app].
  destruct (exceeds_limit (config self) (dict_get info "duration" (VInt 0))) as [[|]|e];
    [left; reflexivity | | left; reflexivity].
  rewrite fst_bind, outside_calls_app, fst_report, outside_calls_report. cbn [app].
  destruct (snd (_report_progress self 5 "Downloading audio...")) as [[]|e5];
    [|left; reflexivity].
  right. rewrite fst_bind. cbn [emit fst snd app outside_calls]. f_equal.
  apply (reports_no_outside_calls self).
  apply trace_all_bind; [apply run_hooks_reports | intros _].
  apply trace_all_bind; [apply trace_all_lift_unit | intros _].
  apply trace_all_bind; [apply trace_all_lift | intros filename].
  match goal with |- trace_all _ (match ?x with _ => _ end) => destruct x end;
    [|apply trace_all_ret].
  apply trace_all_bind; [|intros _].
  - apply trace_all_report. intros f Hf. exists f. exact Hf.
  - apply trace_all_bind; [apply trace_all_lift | intros description; apply trace_all_ret].
Qed.

Lemma download_calls self w url output_dir cb :
  exists n, outside_calls (trace_of (download self w url output_dir cb))
            = firstn n (steps (config self) url output_dir).
Proof.
  unfold trace_of, steps. rewrite download_unfold. cbn [snd].
  destruct (validate_url url); cbn [negb]; [|exists 0; reflexivity].
  generalize (ydl_opts_for (config self) output_dir). intros opts.
  rewrite fst_bind. cbn [emit fst snd app outside_calls].
  rewrite fst_bind. destruct (mkdir w output_dir); cbn [lift_unit raise ret fst snd app];
    [exists 1; reflexivity|].
  rewrite handle_events. unfold guarded.
  rewrite fst_bind. cbn [emit fst snd app outside_calls].
  rewrite fst_bind. destruct (ydl_open w opts); cbn [lift_unit raise ret fst snd app];
    [exists 2; reflexivity|].
  rewrite fst_bind, outside_calls_app, fst_report, outside_calls_report. cbn [app].
  destruct (snd (_report_progress (with_callback self cb) 0 "Extracting video info..."));
    [|exists 2; reflexivity].
  rewrite fst_bind. cbn [emit fst snd app outside_calls].
  rewrite fst_bind. cbn [lift fst snd app].
  destruct (extract_info w url) as [[info|]|e]; [| exists 3; reflexivity ..].
  destruct (with_info_calls (with_callback self cb) w url output_dir info) as [H|H];
    rewrite H; [exists 3 | exists 4]; reflexivity.
Qed.

(** X7. Without a callback, [download] makes no progress report of any
    kind, whatever the outside world answers. *)
Theorem download_without_callback_is_silent :
  forall self w url output_dir,
    callbacks (trace_of (download self w url output_dir None)) = [].
Proof.
  intros self w url output_dir.
  set (P := fun ev => match ev with EvCallback _ _ => False | _ => True end).
  assert (forall t, Forall P t -> callbacks t = []) as Hquiet.
  { induction 1 as [|ev t Hev _ IH]; [reflexivity|].
    destruct ev; simpl in *; try contradiction; exact IH. }
  apply Hquiet. clear Hquiet.
  assert (forall t, Forall (report_if_held (with_callback self None)) t -> Forall P t) as Hsub.
  { intros t Ht. rewrite (reports_none_held (with_callback self None) t eq_refl Ht).
    constructor. }
  unfold trace_of. rewrite download_unfold. cbn [snd].
  destruct (validate_url url); cbn [negb]; [|constructor].
  change (trace_all P
            (emit (EvMkdir output_dir) ;;; lift_unit (mkdir w output_dir) ;;;
             handle w url (guarded (with_callback self None) w url output_dir
                                   (ydl_opts_for (config self) output_dir)))).
  apply trace_all_bind; [apply trace_all_emit; exact I | intros _].
  apply trace_all_bind; [apply trace_all_lift_unit | intros _].
  apply trace_all_handle. unfold guarded.
  apply trace_all_bind; [apply trace_all_emit; exact I | intros _].
  apply trace_all_bind; [apply trace_all_lift_unit | intros _].
  apply trace_all_bind; [apply trace_all_report; intros f Hf; discriminate Hf | intros _].
  apply trace_all_bind; [apply trace_all_emit; exact I | intros _].
  apply trace_all_bind; [apply trace_all_lift | intros [info|]]; [|apply trace_all_ret].
  unfold with_info.
  apply trace_all_bind; [apply trace_all_lift | intros [|]]; [apply trace_all_ret|].
  apply trace_all_bind; [apply trace_all_report; intros f Hf; discriminate Hf | intros _].
  apply trace_all_bind; [apply trace_all_emit; exact I | intros _].
  apply trace_all_bind; [apply Hsub, run_hooks_reports | intros _].
  apply trace_all_bind; [apply trace_all_lift_unit | intros _].
  apply trace_all_bind; [apply trace_all_lift | intros filename].
  match goal with |- trace_all _ (match ?x with _ => _ end) => destruct x end;
    [|apply trace_all_ret].
  apply trace_all_bind; [apply trace_all_report; intros f Hf; discriminate Hf | intros _].
  apply trace_all_bind; [apply trace_all_lift | intros description; apply trace_all_ret].
Qed.

(** X8. The calls that leave the process during a [download] are always
    an initial part of: create the directory, open yt-dlp with the
    rendered options, probe the URL, transfer the URL.  So each happens
    at most once, nothing is transferred that was not probed before, and
    only the URL and the directory given are touched. *)
Theorem download_steps_in_order :
  forall self w url output_dir cb,
  exists n,
    outside_calls (trace_of (download self w url output_dir cb))
    = firstn n [EvMkdir output_dir; EvOpen (ydl_opts_for (config self) output_dir);
                EvProbe url; EvTransfer url].
Proof. intros. apply download_calls. Qed.

(** X9. When [download] returns a success, the call has done exactly
    this, in this order: created the directory, opened yt-dlp, reported
    0, probed, reported 5, transferred (with the reports of the hook),
    reported 100; the reports are made only when a callback is held. *)
Theorem success_trace self w url output_dir cb r :
  outcome_of (download self w url output_dir cb) = Returned r ->
  success r = true ->
  trace_of (download self w url output_dir cb)
  = [EvMkdir output_dir; EvOpen (ydl_opts_for (config self) output_dir)]
    ++ report_event cb 0 "Extracting video info..."
    ++ [EvProbe url]
    ++ report_event cb 5 "Downloading audio..."
    ++ [EvTransfer url]
    ++ fst (run_hooks (with_callback self cb) (fst (transfer w url)))
    ++ report_event cb 100 "Download complete!".
Proof.
  intros Hr Hs.
  destruct (download_success self w url output_dir cb r Hr Hs)
    as (info & _ & _ & _ & _ & _ & Hw & Htrace).
  destruct (with_info_success _ w url output_dir info r Hw Hs)
    as (filename & path & description & _ & _ & _ & _ & _ & _ & _ & _ & _ & Hrest).
  rewrite Htrace, Hrest, !fst_report. reflexivity.
Qed.

Lemma success_trace_witness :
  trace_of (download (init None) (calm_world zoo_info [finished]) zoo_url "out" (Some silent))
  = [EvMkdir "out"; EvOpen (ydl_opts_for (config (init None)) "out");
     EvCallback 0 "Extracting video info..."; EvProbe zoo_url;
     EvCallback 5 "Downloading audio..."; EvTransfer zoo_url;
     EvCallback 90 "Converting audio..."; EvCallback 100 "Download complete!"].
Proof.
  pose proof (success_trace (init None) (calm_world zoo_info [finished]) zoo_url "out"
                (Some silent)
                (success_record (calm_world zoo_info [finished]) zoo_url zoo_info
                                "out/video.wav" (VStr "The first video on YouTube."))) as H.
  rewrite H; [reflexivity | vm_compute; reflexivity | reflexivity].
Defined.

(** X13. A probed mapping whose [description] entry is [None] (or a
    number) never gives a success: taking [[:500]] of it raises after the
    transfer, and the call ends as a failure. *)
Theorem description_none_never_succeeds self w url output_dir cb info r :
  extract_info w url = Returned (Some info) ->
  (info !! "description" = Some VNone \/ exists z, info !! "description" = Some (VInt z)) ->
  outcome_of (download self w url output_dir cb) = Returned r ->
  success r = false.
Proof.
  intros Hinfo Hdesc Hr. destruct (success r) eqn:Hs; [|reflexivity]. exfalso.
  destruct (download_success self w url output_dir cb r Hr Hs)
    as (info' & _ & _ & _ & _ & Hinfo' & Hw & _).
  rewrite Hinfo in Hinfo'. injection Hinfo' as <-.
  destruct (with_info_success _ w url output_dir info r Hw Hs)
    as (filename & path & description & _ & _ & _ & _ & _ & _ & _ & Hslice & _).
  unfold dict_get in Hslice.
  destruct Hdesc as [Hd | [z Hd]]; rewrite Hd in Hslice; discriminate Hslice.
Qed.

Lemma description_none_never_succeeds_witness :
  exists r,
    outcome_of (download (init None)
                  (calm_world (<["description" := VNone]> zoo_info) [finished])
                  zoo_url "out" None) = Returned r
    /\ success r = false
    /\ error_message r = Some "Unexpected error: 'NoneType' object is not subscriptable".
Proof.
  eexists. split; [vm_compute; reflexivity|]. split; [|reflexivity].
  apply (description_none_never_succeeds (init None)
           (calm_world (<["description" := VNone]> zoo_info) [finished])
           zoo_url "out" None (<["description" := VNone]> zoo_info)).
  - reflexivity.
  - left. vm_compute. reflexivity.
  - vm_compute. reflexivity.
Defined.

(** *** Locating the written file *)

Lemma max_by_mtime_split files : forall best,
  exists before after,
    best :: files = before ++ max_by_mtime best files :: after
    /\ Forall (fun g => (snd g < snd (max_by_mtime best files))%Z) before
    /\ Forall (fun g => (snd g <= snd (max_by_mtime best files))%Z) after.
Proof.
  induction files as [|f files IH]; intros best.
  - exists [], []. simpl. repeat split; constructor.
  - simpl. destruct (snd best <? snd f)%Z eqn:E.
    + apply Z.ltb_lt in E.
      destruct (IH f) as (before & after & Heq & Hlt & Hle).
      exists (best :: before), after. split; [simpl; rewrite <- Heq; reflexivity|].
      split; [|exact Hle]. constructor; [|exact Hlt].
      destruct before as [|b before]; simpl in Heq.
      * injection Heq as Heq _. rewrite <- Heq. exact E.
      * injection Heq as <- _. inversion Hlt; subst. simpl in *. lia.
    + apply Z.ltb_ge in E.
      destruct (IH best) as (before & after & Heq & Hlt & Hle).
      destruct before as [|b before]; simpl in Heq.
      * injection Heq as Heq Hafter. exists [], (f :: after).
        split; [simpl; rewrite <- Heq, <- Hafter; reflexivity|].
        split; [constructor|]. constructor; [rewrite <- Heq; exact E | exact Hle].
      * injection Heq as <- Hrest. exists (best :: f :: before), after.
        split; [simpl; do 2 f_equal; exact Hrest|].
        split; [|exact Hle]. inversion Hlt; subst.
        constructor; [assumption|]. constructor; [simpl in *; lia | assumption].
Qed.


Lemma locate_spec cfg w output_dir filename path :
  locate cfg w output_dir filename = Some path ->
  let expected := rsplit_dot_head filename +:+ "." +:+ format_name (audio_format cfg) in
  let found := glob w output_dir ("*." +:+ format_name (audio_format cfg)) in
  (path_exists w expected = true /\ path = expected)
  \/ (path_exists w expected = false
      /\ exists f, In f found /\ path = fst f
                   /\ forall g, In g found -> (snd g <= snd f)%Z).
Proof.
  unfold locate. cbv zeta.
  destruct (path_exists w _) eqn:Hex.
  - intros [= <-]. left. auto.
  - destruct (glob w output_dir _) as [|f files] eqn:Hglob; [discriminate|].
    intros [= <-]. right. split; [reflexivity|].
    exists (max_by_mtime f files).
    destruct (max_by_mtime_split files f) as (before & after & Heq & Hlt & Hle).
    split; [rewrite Heq; apply in_or_app; right; left; reflexivity|].
    split; [reflexivity|].
    intros g Hg. rewrite Heq in Hg. apply in_app_or in Hg as [Hg | [<- | Hg]].
    + rewrite Forall_forall in Hlt. specialize (Hlt g). rewrite <- list_elem_of_In in Hg.
      specialize (Hlt Hg). simpl in Hlt. lia.
    + lia.
    + rewrite Forall_forall in Hle. rewrite <- list_elem_of_In in Hg. exact (Hle g Hg).
Qed.

(** X14. The [file_path] of a success is the expected path, the
    prepared file name with its last extension replaced by the
    configured format, when that path exists; otherwise it is a file
    that the glob for the format found in the output directory, and none
    of the files found is newer. *)
Theorem success_file_path self w url output_dir cb r :
  outcome_of (download self w url output_dir cb) = Returned r ->
  success r = true ->
  exists info filename,
    extract_info w url = Returned (Some info)
    /\ prepare_filename w info = Returned filename
    /\ let expected := rsplit_dot_head filename +:+ "."
                       +:+ format_name (audio_format (config self)) in
       let found := glob w output_dir ("*." +:+ format_name (audio_format (config self))) in
       (path_exists w expected = true /\ file_path r = Some expected)
       \/ (path_exists w expected = false
           /\ exists f, In f found /\ file_path r = Some (fst f)
                        /\ forall g, In g found -> (snd g <= snd f)%Z).
Proof.
  intros Hr Hs.
  destruct (download_success self w url output_dir cb r Hr Hs)
    as (info & _ & _ & _ & _ & Hinfo & Hw & _).
  destruct (with_info_success _ w url output_dir info r Hw Hs)
    as (filename & path & description & _ & _ & _ & _ & Hf & Hloc & _ & _ & -> & _).
  exists info, filename. split; [exact Hinfo|]. split; [exact Hf|].
  cbn [config with_callback] in Hloc.
  destruct (locate_spec _ w output_dir filename path Hloc) as [[Hex ->] | (Hex & f & Hin & -> & Hmax)].
  - left. split; [exact Hex | reflexivity].
  - right. split; [exact Hex|]. exists f. split; [exact Hin|]. split; [reflexivity | exact Hmax].
Qed.

Lemma success_file_path_witness :
  exists r,
    outcome_of (download (init None) (calm_world zoo_info [finished]) zoo_url "out" None)
    = Returned r
    /\ file_path r = Some "out/video.wav".
Proof.
  eexists. split; [vm_compute; reflexivity|].
  destruct (success_file_path (init None) (calm_world zoo_info [finished]) zoo_url "out" None
              (success_record (calm_world zoo_info [finished]) zoo_url zoo_info
                              "out/video.wav" (VStr "The first video on YouTube.")))
    as (info & filename & _ & _ & _).
  - vm_compute. reflexivity.
  - reflexivity.
  - reflexivity.
Defined.








(** *** Calls that end early *)

(** A world in which the probe fails. *)
Definition unavailable_world : World :=
  {| now := 0;
     mkdir := fun _ => None;
     ydl_open := fun _ => None;
     extract_info := fun _ => Raised (mkExn DownloadError "Video unavailable");
     transfer := fun _ => ([], None);
     prepare_filename := fun _ => Returned "out/video.webm";
     path_exists := fun _ => true;
     glob := fun _ _ => [] |}.

Lemma download_opened self w url output_dir cb :
  validate_url url = true ->
  mkdir w output_dir = None ->
  ydl_open w (ydl_opts_for (config self) output_dir) = None ->
  let rest :=
    handle w url
      (_report_progress (with_callback self cb) 0 "Extracting video info..." ;;;
       emit (EvProbe url) ;;;
       info <- lift (extract_info w url) ;;
       match info with
       | None => ret (failure w url "Failed to extract video info")
       | Some info => with_info (with_callback self cb) w url output_dir info
       end) in
  snd (download self w url output_dir cb)
  = ([EvMkdir output_dir; EvOpen (ydl_opts_for (config self) output_dir)] ++ fst rest,
     snd rest).
Proof.
  intros Hurl Hmkdir Hopen. cbv zeta.
  rewrite download_unfold. cbn [snd]. rewrite Hurl. cbn [negb].
  rewrite Hmkdir. unfold guarded. rewrite Hopen.
  generalize (ydl_opts_for (config self) output_dir). intros opts.
  match goal with |- context [handle w url (_ ;;; _ ;;; ?m)] => generalize m end.
  intros rest. destruct rest as [t [r|e]]; cbn; try destruct (exn_cls e); reflexivity.
Qed.

(** X12. A callback that raises an [Exception] on the first report ends
    the call before the probe: [download] returns the failure
    [Unexpected error: <text>], and yt-dlp has only been opened. *)
Theorem callback_error_stops_before_probe self w url output_dir f e :
  validate_url url = true ->
  mkdir w output_dir = None ->
  ydl_open w (ydl_opts_for (config self) output_dir) = None ->
  f 0%Q "Extracting video info..." = Some e ->
  exn_cls e = OtherException ->
  snd (download self w url output_dir (Some f))
  = ([EvMkdir output_dir; EvOpen (ydl_opts_for (config self) output_dir);
      EvCallback 0 "Extracting video info..."],
     Returned (failure w url ("Unexpected error: " +:+ exn_msg e))).
Proof.
  intros Hurl Hmkdir Hopen Hf Hcls.
  rewrite (download_opened self w url output_dir (Some f) Hurl Hmkdir Hopen).
  rewrite (report_with_callback (with_callback self (Some f)) f _ _ eq_refl), Hf.
  cbn [bind handle fst snd app]. rewrite Hcls. reflexivity.
Qed.

Lemma callback_error_stops_before_probe_witness :
  outcome_of (download (init None) (calm_world zoo_info [finished]) zoo_url "out"
                (Some (fun _ _ => Some (mkExn OtherException "closed"))))
  = Returned (failure (calm_world zoo_info [finished]) zoo_url "Unexpected error: closed").
Proof.
  unfold outcome_of.
  rewrite (callback_error_stops_before_probe (init None) (calm_world zoo_info [finished])
             zoo_url "out" (fun _ _ => Some (mkExn OtherException "closed"))
             (mkExn OtherException "closed")); reflexivity.
Defined.

(** X10. When the probe gives no mapping, the call ends right after it,
    with no transfer: a probe that returns [None] gives the failure
    [Failed to extract video info], a [DownloadError] of the probe gives
    [Download error: <text>], any other [Exception] gives
    [Unexpected error: <text>], and an exception outside [Exception]
    leaves [download]. *)
Theorem probe_without_info self w url output_dir cb :
  validate_url url = true ->
  mkdir w output_dir = None ->
  ydl_open w (ydl_opts_for (config self) output_dir) = None ->
  (forall f, cb = Some f -> f 0%Q "Extracting video info..." = None) ->
  let trace := probed_trace url output_dir (ydl_opts_for (config self) output_dir) cb in
  match extract_info w url with
  | Returned (Some _) => True
  | Returned None =>
      snd (download self w url output_dir cb)
      = (trace, Returned (failure w url "Failed to extract video info"))
  | Raised e =>
      snd (download self w url output_dir cb)
      = (trace,
         match exn_cls e with
         | DownloadError => Returned (failure w url ("Download error: " +:+ exn_msg e))
         | OtherException => Returned (failure w url ("Unexpected error: " +:+ exn_msg e))
         | NonException => Raised e
         end)
  end.
Proof.
  intros Hurl Hmkdir Hopen Hcb. cbv zeta.
  rewrite (download_opened self w url output_dir cb Hurl Hmkdir Hopen).
  rewrite (report_passes self cb _ _ Hcb). unfold probed_trace.
  destruct (extract_info w url) as [[info|]|e]; [exact I | |].
  - destruct cb; reflexivity.
  - destruct cb; cbn [bind emit lift handle fst snd app]; destruct (exn_cls e); reflexivity.
Qed.

Lemma probe_without_info_witness :
  outcome_of (download (init None) unavailable_world zoo_url "out" None)
  = Returned (failure unavailable_world zoo_url "Download error: Video unavailable").
Proof.
  pose proof (probe_without_info (init None) unavailable_world zoo_url "out" None
                eq_refl eq_refl eq_refl (fun f Hf => ltac:(discriminate Hf))) as H.
  hnf in H. exact (f_equal snd H).
Defined.



End CallFacts.

(** ** The rendered options, key by key *)

Module OptionFacts.

Import Config Base YouTube DownloadFacts CallFacts.

Lemma postprocessor_args_nil c :
  postprocessor_args c = [] <-> truthy_opt_int (sample_rate c) = false /\ mono c = false.
Proof.
  unfold postprocessor_args.
  destruct (truthy_opt_int (sample_rate c)), (mono c); simpl; split;
    try discriminate; try (intros [? ?]; discriminate); auto.
Qed.

(** X18. The keys of the rendered options: the six fixed ones always;
    [cookiesfrombrowser], holding the browser name as a one-element
    tuple, exactly when a non-empty browser name is configured;
    [postprocessor_args] exactly when a non-zero sample rate or mono is
    configured.  The [postprocessors] list starts with the audio
    extraction for the configured format and quality, and ends with the
    metadata step exactly when [embed_metadata] is on. *)
Theorem to_yt_dlp_opts_keys :
  forall c,
    dom (to_yt_dlp_opts c)
    = ({["format"; "postprocessors"; "outtmpl"; "quiet"; "no_warnings"; "http_headers"]}
       ∪ (if truthy_opt_str (cookies_from_browser c) then {["cookiesfrombrowser"]} else ∅)
       ∪ (if truthy_opt_int (sample_rate c) || mono c then {["postprocessor_args"]} else ∅)
       : gset string)
    /\ to_yt_dlp_opts c !! "cookiesfrombrowser"
       = (if truthy_opt_str (cookies_from_browser c)
          then Some (OTuple [default "" (cookies_from_browser c)]) else None)
    /\ to_yt_dlp_opts c !! "postprocessors"
       = Some (OList (ODict [("key", OStr "FFmpegExtractAudio");
                             ("preferredcodec", OStr (format_name (audio_format c)));
                             ("preferredquality", OStr (str_of_int (audio_quality c)))]
                      :: if embed_metadata c
                         then [ODict [("key", OStr "FFmpegMetadata")]] else [])).
Proof.
  intros c. unfold to_yt_dlp_opts.
  pose proof (postprocessor_args_nil c) as Hnil.
  destruct (postprocessor_args c) as [|a args];
    destruct (truthy_opt_int (sample_rate c)), (mono c);
    try (destruct Hnil as [Hnil _]; specialize (Hnil eq_refl); destruct Hnil; discriminate);
    try (destruct Hnil as [_ Hnil]; specialize (Hnil (conj eq_refl eq_refl)); discriminate);
    destruct (truthy_opt_str (cookies_from_browser c)), (embed_metadata c);
    cbn zeta iota beta;
    (split; [rewrite ?dom_alter_L, ?dom_insert_L, dom_empty_L; set_solver|]);
    (split; by simplify_map_eq).
Qed.





End OptionFacts.

(** ** Results and failures *)

Module ResultFacts.

Import Config Base YouTube DownloadFacts CallFacts.



(** How the [except] clauses answer an exception [e] of the guarded
    body. *)
Definition answer (w : World) (url : string) (e : exn) : outcome DownloadResult :=
  match exn_cls e with
  | DownloadError => Returned (failure w url ("Download error: " +:+ exn_msg e))
  | OtherException => Returned (failure w url ("Unexpected error: " +:+ exn_msg e))
  | NonException => Raised e
  end.

Lemma snd_handle_raised w url t e : snd (handle w url (t, Raised e)) = answer w url e.
Proof. unfold handle, answer. destruct (exn_cls e); reflexivity. Qed.

(** X21. Once the transfer has been started, an exception raised by the
    progress hook during it, or else the error with which yt-dlp ends
    the transfer, decides the result: a [DownloadError] gives
    [Download error: <text>], another [Exception] gives
    [Unexpected error: <text>], and anything else leaves [download]. *)
Theorem transfer_failure self w url output_dir cb info :
  validate_url url = true ->
  mkdir w output_dir = None ->
  ydl_open w (ydl_opts_for (config self) output_dir) = None ->
  (forall f, cb = Some f ->
     f 0%Q "Extracting video info..." = None /\ f 5%Q "Downloading audio..." = None) ->
  extract_info w url = Returned (Some info) ->
  exceeds_limit (config self) (dict_get info "duration" (VInt 0)) = Returned false ->
  match snd (run_hooks (with_callback self cb) (fst (transfer w url))) with
  | Raised e => outcome_of (download self w url output_dir cb) = answer w url e
  | Returned _ =>
      match snd (transfer w url) with
      | Some e => outcome_of (download self w url output_dir cb) = answer w url e
      | None => True
      end
  end.
Proof.
  intros Hurl Hmkdir Hopen Hcb Hinfo Hgate.
  pose proof (download_after_probe self w url output_dir cb info Hurl Hmkdir Hopen
                (fun f Hf => proj1 (Hcb f Hf)) Hinfo) as Hrun.
  cbv zeta in Hrun. unfold outcome_of. rewrite Hrun. cbn [snd].
  unfold with_info. cbn [config with_callback]. rewrite Hgate, HookFacts.bind_lift_returned.
  rewrite (report_passes self cb _ _ (fun f Hf => proj2 (Hcb f Hf))).
  destruct (run_hooks (with_callback self cb) (fst (transfer w url))) as [th [[]|eh]].
  - cbn [snd]. destruct (snd (transfer w url)) as [e|]; [|exact I].
    cbn [bind emit lift_unit raise fst snd app]. apply snd_handle_raised.
  - cbn [bind emit lift_unit raise fst snd app]. apply snd_handle_raised.
Qed.

Lemma transfer_failure_witness :
  let w := mkWorld 0 (fun _ => None) (fun _ => None) (fun _ => Returned (Some zoo_info))
                   (fun _ => ([], Some (mkExn DownloadError "HTTP Error 403: Forbidden")))
                   (fun _ => Returned "out/video.webm") (fun _ => true) (fun _ _ => []) in
  outcome_of (download (init None) w zoo_url "out" None)
  = Returned (failure w zoo_url "Download error: HTTP Error 403: Forbidden").
Proof.
  cbv zeta.
  exact (transfer_failure (init None)
           (mkWorld 0 (fun _ => None) (fun _ => None) (fun _ => Returned (Some zoo_info))
              (fun _ => ([], Some (mkExn DownloadError "HTTP Error 403: Forbidden")))
              (fun _ => Returned "out/video.webm") (fun _ => true) (fun _ _ => []))
           zoo_url "out" None zoo_info eq_refl eq_refl eq_refl
           (fun f Hf => ltac:(discriminate Hf)) eq_refl eq_refl).
Defined.

End ResultFacts.

(** ** More on the hook and on the URL patterns *)

Module MoreFacts.

Import Config Base Re ReFacts YouTube UrlFacts VideoId DownloadFacts HookFacts.

(** X22. For one known size, more bytes never give a smaller
    percentage: of two byte-progress events the one with the larger
    count is reported with a percentage at least as large. *)
Theorem progress_hook_monotone self f d1 d2 t dl1 dl2 :
  _progress_callback self = Some f ->
  d1 !! "status" = Some (VStr "downloading") ->
  d2 !! "status" = Some (VStr "downloading") ->
  known_total d1 t -> known_total d2 t -> (0 < t)%Z ->
  dict_get d1 "downloaded_bytes" (VInt 0) = VInt dl1 ->
  dict_get d2 "downloaded_bytes" (VInt 0) = VInt dl2 ->
  (forall v, d1 !! "speed" = Some v -> v = VNone \/ exists z, v = VInt z) ->
  (forall v, d2 !! "speed" = Some v -> v = VNone \/ exists z, v = VInt z) ->
  (dl1 <= dl2)%Z ->
  exists p1 s1 p2 s2,
    fst (_progress_hook self d1) = [EvCallback p1 s1]
    /\ fst (_progress_hook self d2) = [EvCallback p2 s2]
    /\ (p1 <= p2)%Q.
Proof.
  intros Hcb Hs1 Hs2 Ht1 Ht2 Hpos Hd1 Hd2 Hv1 Hv2 Hle.
  rewrite (hook_downloading self d1 t dl1 Hs1 Ht1 Hpos Hd1 Hv1).
  rewrite (hook_downloading self d2 t dl2 Hs2 Ht2 Hpos Hd2 Hv2).
  rewrite !(report_with_callback self f _ _ Hcb). cbn [fst].
  eexists _, _, _, _. split; [reflexivity|]. split; [reflexivity|].
  apply Qplus_le_r. apply Qmult_le_compat_r; [|discriminate].
  unfold Qdiv. apply Qmult_le_compat_r; [rewrite <- Zle_Qle; exact Hle|].
  apply Qinv_le_0_compat. change 0%Q with (inject_Z 0). rewrite <- Zle_Qle. lia.
Qed.

Lemma progress_hook_monotone_witness :
  exists p1 s1 p2 s2,
    fst (_progress_hook (with_callback (init None) (Some silent)) (downloading 100 1000))
    = [EvCallback p1 s1]
    /\ fst (_progress_hook (with_callback (init None) (Some silent)) (downloading 900 1000))
       = [EvCallback p2 s2]
    /\ (p1 <= p2)%Q.
Proof.
  apply (progress_hook_monotone (with_callback (init None) (Some silent)) silent
           (downloading 100 1000) (downloading 900 1000) 1000 100 900).
  - reflexivity.
  - vm_compute. reflexivity.
  - vm_compute. reflexivity.
  - left. split; [vm_compute; reflexivity | discriminate].
  - left. split; [vm_compute; reflexivity | discriminate].
  - reflexivity.
  - vm_compute. reflexivity.
  - vm_compute. reflexivity.
  - intros v Hv. vm_compute in Hv. discriminate.
  - intros v Hv. vm_compute in Hv. discriminate.
  - discriminate.
Defined.

Lemma validate_url_by_tail scheme www site tail :
  In scheme schemes -> In www www_prefixes -> In site sites ->
  validate_url (scheme +:+ www +:+ site +:+ tail) = re_match video_id tail.
Proof.
  intros Hscheme Hwww Hsite. unfold validate_url, re_match.
  rewrite !list_ascii_of_string_app. generalize (list_ascii_of_string tail). intros t.
  unfold schemes, www_prefixes, sites in *. simpl in Hscheme, Hwww, Hsite.
  destruct Hscheme as [<-|[<-|[<-|[]]]]; destruct Hwww as [<-|[<-|[]]];
    destruct Hsite as [<-|[<-|[<-|[<-|[]]]]];
    cbn -[video_id]; destruct (rests video_id t); reflexivity.
Qed.

(** X23. After an optional scheme, an optional [www.] and one of the
    four site paths, [validate_url] looks at the next eleven characters
    only: the URL is accepted exactly when they are there and all of the
    class [[a-zA-Z0-9_-]]; what follows them is never looked at. *)
Theorem validate_url_looks_at_eleven scheme www site tail :
  In scheme schemes -> In www www_prefixes -> In site sites ->
  (validate_url (scheme +:+ www +:+ site +:+ tail) = true <->
   exists id rest,
     tail = id +:+ rest /\ String.length id = 11
     /\ forallb id_char (list_ascii_of_string id) = true).
Proof.
  intros Hscheme Hwww Hsite.
  rewrite (validate_url_by_tail scheme www site tail Hscheme Hwww Hsite).
  rewrite re_match_spec. unfold video_id. cbn [lang]. split.
  - intros (wd & rest & Htail & Hp). apply power_class in Hp as [Hlen Hall].
    exists (string_of_list_ascii wd), (string_of_list_ascii rest).
    split; [|split].
    + rewrite <- string_of_list_ascii_app, <- Htail.
      symmetry. apply string_of_list_ascii_of_string.
    + rewrite <- Hlen. clear. induction wd; simpl; auto.
    + rewrite list_ascii_of_string_of_list_ascii. exact Hall.
  - intros (id & rest & -> & Hlen & Hall).
    exists (list_ascii_of_string id), (list_ascii_of_string rest).
    split; [apply list_ascii_of_string_app|]. apply power_class.
    split; [|exact Hall]. rewrite <- Hlen. clear. induction id; simpl; auto.
Qed.

Lemma validate_url_looks_at_eleven_witness :
  validate_url ("https://" +:+ "" +:+ "youtu.be/" +:+ "dQw4w9WgXcQ and more") = true.
Proof.
  apply (validate_url_looks_at_eleven "https://" "" "youtu.be/" "dQw4w9WgXcQ and more").
  - simpl. auto.
  - simpl. auto.
  - simpl. auto.
  - exists "dQw4w9WgXcQ", " and more". repeat split.
Defined.

End MoreFacts.
